(** * QAOAResult: result aggregation of the QAOA QUBO solver

    A shallow embedding of [_qaoa/_qaoa_result.py].  The class [QAOAResult]
    turns the raw sampling output of a QAOA run (a mapping from bitstrings to
    occurrence counts) into a frequency table, selects the best bitvector and
    keeps the optimisation trace.

    Modelling choices.
    - Python exceptions are values of [exn]; a call returns a [result].
    - Energies are Python floats.  They are modelled by exact rationals [Q]:
      every finite float is a dyadic rational and [<], [==] on finite floats
      are the comparisons of the rationals.  NaN and infinities are outside
      the model.
    - Python integers are unbounded: [Z].
    - [raw_result] is a [Mapping[str, int]]; iteration order matters, so it is
      an association list.  A dictionary has pairwise distinct keys, which is
      the predicate [dict_wf].
    - Lists and arrays that the caller hands over are objects of a shared
      store ([world]): a reference is an index in the store, allocation
      appends.  Calls of [qubo.evaluate] are recorded in the same [world]. *)

From Stdlib Require Import QArith Ascii String.
From stdpp Require Import base list strings gmap.
Local Close Scope Q_scope.
Local Open Scope Z_scope.

(** ** Exceptions and results *)

Inductive exn : Type :=
| ValueError (msg : string)
| KeyError (key : string)
| TypeError (msg : string)
| IndexError (msg : string)
| ShapeError (name : string)
| SystemError (msg : string).

Inductive result (A : Type) : Type :=
| Ok (a : A)
| Raise (e : exn).
Arguments Ok {A} a.
Arguments Raise {A} e.

(** The error of line 110-111, called [EmptyResultError] by the specification. *)
Definition EmptyResultError : exn :=
  ValueError "Argument `raw_result` is empty".

(** ** The store and the monad of effectful calls *)

(** An array-like value: a number, or a sequence of array-like values. *)
#[local] Unset Elimination Schemes.
Inductive arraylike : Type :=
| AScalar (x : Q)
| ASeq (xs : list arraylike).
#[local] Set Elimination Schemes.

(** Objects of the store: a Python list of items, or a numpy array. *)
Inductive pyobj : Type :=
| PyList (xs : list arraylike)
| NdArray (a : arraylike).

Abbreviation loc := nat (only parsing).

(** Python values that occur as arguments and as values of [properties]:
    a reference to a list or an array, a plain number, or an opaque
    configuration object (backend and optimizer descriptors). *)
Inductive pyval : Type :=
| VRef (l : loc)
| VFloat (x : Q)
| VConfig (name : string).

(** Modelled from the spec: [BitVector] of [tno.quantum.utils], a fixed-length
    sequence of binary values; its string form is the binary string, most
    significant bit first, and its length is the number of bits. *)
Definition BitVector := list bool.

Record world : Type := World {
  heap : list pyobj;
  evals : list BitVector
}.

Definition M (A : Type) : Type := world -> result (A * world).

Definition ret {A} (a : A) : M A := fun w => Ok (a, w).

Definition raise {A} (e : exn) : M A := fun _ => Raise e.

Definition bind {A B} (m : M A) (k : A -> M B) : M B :=
  fun w => match m w with
           | Ok (a, w') => k a w'
           | Raise e => Raise e
           end.

Definition lift {A} (r : result A) : M A :=
  fun w => match r with Ok a => Ok (a, w) | Raise e => Raise e end.

Notation "x <- m ;; k" := (bind m (fun x => k))
  (at level 100, m at next level, right associativity).

(** A list comprehension [[f x for x in xs]] with an effectful [f]. *)
Fixpoint traverse {A B} (f : A -> M B) (xs : list A) : M (list B) :=
  match xs with
  | [] => ret []
  | x :: xs' => y <- f x ;; ys <- traverse f xs' ;; ret (y :: ys)
  end.

(** Allocation of a new object: its reference is the next free index. *)
Definition alloc (o : pyobj) : M loc :=
  fun w => Ok (length (heap w), World (heap w ++ [o]) (evals w)).

Definition deref (l : loc) : M pyobj :=
  fun w => match heap w !! l with
           | Some o => Ok (o, w)
           | None => Raise (SystemError "dangling reference")
           end.

(** ** Bitvectors *)

Definition bit_of_char (c : ascii) : result bool :=
  if Ascii.eqb c "0" then Ok false
  else if Ascii.eqb c "1" then Ok true
  else Raise (ValueError "not a bit").

(** Modelled from the spec: [BitVector(s)] for a string [s]; the characters
    of a bitstring are restricted to '0' and '1'. *)
Fixpoint BitVector_of_str (s : string) : result BitVector :=
  match s with
  | EmptyString => Ok []
  | String c s' =>
      match bit_of_char c with
      | Ok b => match BitVector_of_str s' with
                | Ok bs => Ok (b :: bs)
                | Raise e => Raise e
                end
      | Raise e => Raise e
      end
  end.

Definition char_of_bit (b : bool) : ascii := if b then "1"%char else "0"%char.

(** [str(bitvector)]. *)
Fixpoint BitVector_str (b : BitVector) : string :=
  match b with
  | [] => EmptyString
  | x :: b' => String (char_of_bit x) (BitVector_str b')
  end.

(** ** The builtin [int(s, 2)] on digit strings

    [int] raises [ValueError] on the empty string and on a character that is
    not a binary digit.  (Signs, blanks, underscores and the [0b] prefix, which
    [int] also reads, never occur in the string form of a bitvector.) *)
Fixpoint int2_digits (acc : Z) (s : string) : result Z :=
  match s with
  | EmptyString => Ok acc
  | String c s' =>
      match bit_of_char c with
      | Ok b => int2_digits (2 * acc + (if b then 1 else 0)) s'
      | Raise _ => Raise (ValueError "invalid literal for int() with base 2")
      end
  end.

Definition int_base2 (s : string) : result Z :=
  match s with
  | EmptyString => Raise (ValueError "invalid literal for int() with base 2")
  | _ => int2_digits 0 s
  end.

(** ** The raw sample map

    [for s in raw_result] visits the keys in order; [raw_result[s]] is the
    value stored under [s]. *)
Abbreviation Mapping := (list (string * Z)) (only parsing).

Definition keys (m : Mapping) : list string := map fst m.

Fixpoint getitem (m : Mapping) (k : string) : result Z :=
  match m with
  | [] => Raise (KeyError k)
  | (k', v) :: m' => if String.eqb k' k then Ok v else getitem m' k
  end.

Definition dict_wf (m : Mapping) : Prop := NoDup (keys m).

(** [properties[k]] on the dictionary of properties. *)
Definition dict_get (d : gmap string pyval) (k : string) : M pyval :=
  match d !! k with
  | Some v => ret v
  | None => raise (KeyError k)
  end.

(** ** The collaborators: QUBO, Freq, list, check_arraylike *)

(** The objective: [qubo.evaluate] is a pure function of the bitvector, taken
    as a parameter.  Every call is recorded in [evals]. *)
Record QUBO : Type := { energy : BitVector -> Q }.

Definition evaluate (qubo : QUBO) (b : BitVector) : M Q :=
  fun w => Ok (energy qubo b, World (heap w) (evals w ++ [b])).

(** Modelled from the spec: [Freq] of [tno.quantum.optimization.qubo.components],
    the frequency table.  Given three sequences of equal length it builds one
    entry per index and fails with [ShapeError] otherwise; it does not
    deduplicate; iteration yields the triples in insertion order. *)
Record Freq : Type := mkFreq {
  bitvectors : list BitVector;
  energies : list Q;
  num_occurrences : list Z
}.

Definition Freq_new (bvs : list BitVector) (es : list Q) (ns : list Z)
  : result Freq :=
  if Nat.eqb (length bvs) (length es) && Nat.eqb (length es) (length ns)
  then Ok (mkFreq bvs es ns)
  else Raise (ShapeError "freq").

Definition entry : Type := BitVector * Q * Z.

Definition Freq_iter (f : Freq) : list entry :=
  zip (zip (bitvectors f) (energies f)) (num_occurrences f).

Definition is_scalar (a : arraylike) : bool :=
  match a with AScalar _ => true | ASeq _ => false end.

Definition scalar_of (a : arraylike) : option Q :=
  match a with AScalar x => Some x | ASeq _ => None end.

(** The builtin [list(x)]: a new list object with the items of [x]. *)
Definition py_list (v : pyval) : M pyval :=
  match v with
  | VRef l =>
      o <- deref l ;;
      match o with
      | PyList xs => l' <- alloc (PyList xs) ;; ret (VRef l')
      | NdArray (ASeq xs) => l' <- alloc (PyList xs) ;; ret (VRef l')
      | NdArray (AScalar _) => raise (TypeError "iteration over a 0-d array")
      end
  | VFloat _ => raise (TypeError "'float' object is not iterable")
  | VConfig _ => raise (TypeError "object is not iterable")
  end.

(** Modelled from the spec: [check_arraylike(x, name, ndim=1)] of
    [tno.quantum.utils.validation].  The input is normalised to a
    one-dimensional numeric buffer; an input of any other dimensionality is
    refused with [ShapeError].  A list is converted to a new array; an input
    that is an array already is returned as it is, without a copy. *)
Definition check_arraylike (v : pyval) (name : string) : M loc :=
  match v with
  | VRef l =>
      o <- deref l ;;
      match o with
      | PyList xs =>
          if forallb is_scalar xs then alloc (NdArray (ASeq xs))
          else raise (ShapeError name)
      | NdArray (ASeq xs) =>
          if forallb is_scalar xs then ret l else raise (ShapeError name)
      | NdArray (AScalar _) => raise (ShapeError name)
      end
  | VFloat _ => raise (ShapeError name)
  | VConfig _ => raise (TypeError name)
  end.

(** The numbers held by the one-dimensional array at [l]. *)
Definition read_array (h : list pyobj) (l : loc) : option (list Q) :=
  match h !! l with
  | Some (NdArray (ASeq xs)) => mapM scalar_of xs
  | _ => None
  end.

(** The items of the list or array that [v] refers to. *)
Definition items (h : list pyobj) (v : pyval) : option (list arraylike) :=
  match v with
  | VRef l =>
      match h !! l with
      | Some (PyList xs) => Some xs
      | Some (NdArray (ASeq xs)) => Some xs
      | _ => None
      end
  | _ => None
  end.

(** [v] is a one-dimensional array-like in the store [h]. *)
Definition one_dimensional (h : list pyobj) (v : pyval) : bool :=
  match items h v with
  | Some xs => forallb is_scalar xs
  | None => false
  end.

(** The numbers of the one-dimensional array-like that [v] refers to. *)
Definition numbers (h : list pyobj) (v : pyval) : option (list Q) :=
  match items h v with
  | Some xs => mapM scalar_of xs
  | None => None
  end.

(** A reference points into the store. *)
Definition valid_ref (h : list pyobj) (v : pyval) : Prop :=
  match v with
  | VRef l => (l < length h)%nat
  | _ => True
  end.

(** ** Selection of the best entry (lines 94-107) *)

Definition Qltb (x y : Q) : bool := negb (Qle_bool y x).

(** The three loop variables; each is [None] before the first entry. *)
Definition best_state : Type := option BitVector * option Q * option Z.

Definition best_step (st : best_state) (e : entry) : best_state :=
  let '(best_bitvector, best_value, occ_best_bitvector) := st in
  let '(bitvector, value, occ) := e in
  if match best_value, occ_best_bitvector with
     | None, _ => true
     | Some _, None => true
     | Some bv, Some bo =>
         Qltb value bv || (Qeq_bool value bv && (bo <? occ))
     end
  then (Some bitvector, Some value, Some occ)
  else st.

Definition find_best (f : Freq) : best_state :=
  fold_left best_step (Freq_iter f) (None, None, None).

(** ** itertools.product and the histogram accumulation *)

(** [itertools.product(pool, repeat=n)], as the library documents it:
    [result = [x + [y] for x in result for y in pool]], [n] times from [[[]]]. *)
Fixpoint product (pool : list ascii) (repeat : nat) : list (list ascii) :=
  match repeat with
  | O => [[]]
  | S k => flat_map (fun x => map (fun y => x ++ [y]) pool) (product pool k)
  end.

(** [height[i] += n] on a Python list: a negative index counts from the end,
    an index outside the list raises [IndexError]. *)
Definition list_iadd (height : list Z) (i n : Z) : result (list Z) :=
  let len := Z.of_nat (length height) in
  let j := if i <? 0 then i + len else i in
  if (0 <=? j) && (j <? len) then
    match height !! Z.to_nat j with
    | Some x => Ok (<[Z.to_nat j := x + n]> height)
    | None => Raise (IndexError "list index out of range")
    end
  else Raise (IndexError "list index out of range").

(** The loop of lines 159-161. *)
Fixpoint accumulate (height : list Z) (es : list entry) : result (list Z) :=
  match es with
  | [] => Ok height
  | (bitvector, _, n) :: rest =>
      match int_base2 (BitVector_str bitvector) with
      | Ok i =>
          match list_iadd height i n with
          | Ok height' => accumulate height' rest
          | Raise e => Raise e
          end
      | Raise e => Raise e
      end
  end.

(** ** The drawing surface

    [Axes.plot(x, y)] of matplotlib, as far as the class depends on it: it
    draws the series of the points [(x[i], y[i])], and raises [ValueError]
    when [x] and [y] do not have the same length. *)
Definition ax_plot (xs : list nat) (ys : list Q) : result (list nat * list Q) :=
  if Nat.eqb (length xs) (length ys) then Ok (xs, ys)
  else Raise (ValueError "x and y must have same first dimension").

(** ** The class QAOAResult *)

Module QAOAResult.

Record t : Type := mk {
  best_bitvector : BitVector;
  best_value : Q;
  freq : Freq;
  init_beta : loc;
  init_gamma : loc;
  final_beta : loc;
  final_gamma : loc;
  expval_history : loc;
  training_backend : pyval;
  evaluation_backend : pyval;
  optimizer : pyval
}.

(** Lines 55-64.  [super().__init__] stores the best bitvector, the best
    value and the frequency table. *)
Definition __init__ (best_bitvector : BitVector) (best_value : Q) (freq : Freq)
    (init_beta init_gamma final_beta final_gamma expval_history : pyval)
    (training_backend evaluation_backend optimizer : pyval) : M t :=
  init_beta <- check_arraylike init_beta "init_beta" ;;
  init_gamma <- check_arraylike init_gamma "init_gamma" ;;
  final_beta <- check_arraylike final_beta "final_beta" ;;
  final_gamma <- check_arraylike final_gamma "final_gamma" ;;
  expval_history <- check_arraylike expval_history "expval_history" ;;
  ret (mk best_bitvector best_value freq
          init_beta init_gamma final_beta final_gamma expval_history
          training_backend evaluation_backend optimizer).

(** Lines 88-92: the frequency table of [raw_result]. *)
Definition build_freq (qubo : QUBO) (raw_result : Mapping) : M Freq :=
  bitvectors <- traverse (fun s => lift (BitVector_of_str s)) (keys raw_result) ;;
  energies <- traverse (evaluate qubo) bitvectors ;;
  num_occurrences <-
    traverse (fun s => lift (getitem raw_result s)) (keys raw_result) ;;
  lift (Freq_new bitvectors energies num_occurrences).

(** Lines 87-132. *)
Definition from_result (qubo : QUBO) (raw_result : Mapping)
    (properties : gmap string pyval) : M t :=
  freq <- build_freq qubo raw_result ;;
  let '(best_bitvector, best_value, _) := find_best freq in
  match best_bitvector, best_value with
  | Some best_bitvector, Some best_value =>
      init_beta <- (v <- dict_get properties "init_beta" ;; py_list v) ;;
      init_gamma <- (v <- dict_get properties "init_gamma" ;; py_list v) ;;
      final_beta <- (v <- dict_get properties "final_beta" ;; py_list v) ;;
      final_gamma <- (v <- dict_get properties "final_gamma" ;; py_list v) ;;
      expval_history <-
        (v <- dict_get properties "expval_history" ;; py_list v) ;;
      training_backend <- dict_get properties "training_backend" ;;
      evaluation_backend <- dict_get properties "evaluation_backend" ;;
      optimizer <- dict_get properties "optimizer" ;;
      __init__ best_bitvector best_value freq
        init_beta init_gamma final_beta final_gamma expval_history
        training_backend evaluation_backend optimizer
  | _, _ => raise EmptyResultError
  end.

(** Line 143: [ax.plot(range(len(self.expval_history)), self.expval_history)];
    the series drawn. *)
Definition plot_expval_history (self : t) (h : list pyobj)
  : result (list nat * list Q) :=
  match read_array h (expval_history self) with
  | Some ys => ax_plot (seq 0 (length ys)) ys
  | None => Raise (SystemError "dangling reference")
  end.

(** Lines 156-163: the labels and the heights handed to [ax.bar]. *)
Definition plot_shots_histogram (self : t) : result (list string * list Z) :=
  let n_bits := length (best_bitvector self) in
  let x_values :=
    map string_of_list_ascii (product ["0"%char; "1"%char] n_bits) in
  let height := map (fun _ => 0) x_values in
  match accumulate height (Freq_iter (freq self)) with
  | Ok height => Ok (x_values, height)
  | Raise e => Raise e
  end.

(** Lines 177-180: [depth = len(self.final_beta)], then
    [ax.plot(range(depth), self.final_beta)] and
    [ax.plot(range(depth), self.final_gamma)]; the two series drawn. *)
Definition plot_parameters (self : t) (h : list pyobj)
  : result ((list nat * list Q) * (list nat * list Q)) :=
  match read_array h (final_beta self), read_array h (final_gamma self) with
  | Some beta, Some gamma =>
      let depth := length beta in
      match ax_plot (seq 0 depth) beta with
      | Ok series_beta =>
          match ax_plot (seq 0 depth) gamma with
          | Ok series_gamma => Ok (series_beta, series_gamma)
          | Raise e => Raise e
          end
      | Raise e => Raise e
      end
  | _, _ => Raise (SystemError "dangling reference")
  end.

End QAOAResult.

(** ** Vocabulary of the statements *)

(** The three components of an entry of the table. *)
Definition candidate (e : entry) : BitVector := e.1.1.
Definition score (e : entry) : Q := e.1.2.
Definition count (e : entry) : Z := e.2.

(** [e], found at position [i], is the best entry of [es]: no entry scores
    lower; no entry with the same score occurs more often; and no earlier
    entry ties on both. *)
Definition best_at (es : list entry) (i : nat) (e : entry) : Prop :=
  es !! i = Some e /\
  (forall j e', es !! j = Some e' -> (score e <= score e')%Q) /\
  (forall j e', es !! j = Some e' ->
     (score e' == score e)%Q -> count e' <= count e) /\
  (forall j e', es !! j = Some e' ->
     (score e' == score e)%Q -> count e' = count e -> (i <= j)%nat).

(** The loop variables when [e] is the running best. *)
Definition chosen (e : entry) : best_state :=
  (Some (candidate e), Some (score e), Some (count e)).

(** A string of the characters '0' and '1'. *)
Fixpoint is_bitstring (s : string) : bool :=
  match s with
  | EmptyString => true
  | String c s' =>
      (Ascii.eqb c "0" || Ascii.eqb c "1") && is_bitstring s'
  end.

(** The exceptions of class [ValueError]. *)
Definition is_ValueError (e : exn) : bool :=
  match e with ValueError _ => true | _ => false end.

(** The objective takes the given values on the four two-bit vectors
    "00", "01", "10" and "11". *)
Definition scores (qubo : QUBO) (s00 s01 s10 s11 : Q) : Prop :=
  energy qubo [false; false] = s00 /\ energy qubo [false; true] = s01 /\
  energy qubo [true; false] = s10 /\ energy qubo [true; true] = s11.

(** Every value of the dictionary of properties points into the store. *)
Definition properties_valid (props : gmap string pyval) (h : list pyobj) : Prop :=
  forall k v, props !! k = Some v -> valid_ref h v.


(** The unsigned integer a bitvector stands for, most significant bit
    first. *)
Fixpoint decode_from (acc : Z) (b : BitVector) : Z :=
  match b with
  | [] => acc
  | x :: b' => decode_from (2 * acc + (if x then 1 else 0)) b'
  end.

Definition decode (b : BitVector) : Z := decode_from 0 b.

(** The [n]-bit binary representation of [i], most significant bit first. *)
Fixpoint bits_of (n i : nat) : BitVector :=
  match n with
  | O => []
  | S k => bits_of k (i / 2) ++ [Nat.odd i]
  end.

(** The sum of a list of integers. *)
Definition Zsum (l : list Z) : Z := foldr Z.add 0 l.

(** The summed occurrence count of the entries that decode to [i]. *)
Definition bucket (es : list entry) (i : nat) : Z :=
  Zsum (map count
          (filter (fun e => decode (candidate e) = Z.of_nat i) es)).

(** The candidates of the table and the best bitvector all have [n] bits. *)
Definition n_bit (r : QAOAResult.t) (n : nat) : Prop :=
  length (QAOAResult.best_bitvector r) = n /\
  Forall (fun e => length (candidate e) = n) (Freq_iter (QAOAResult.freq r)).

(** ** Sample inputs

    The raw sample map and the two score tables of the specification's
    examples, a store with four caller-owned objects (the last one is
    two-dimensional), and a dictionary of properties that refers to them. *)

Definition raw_example : Mapping :=
  [("00", 5); ("01", 3); ("10", 3); ("11", 1)]%string.

Fixpoint table_score (t : list (string * Q)) (k : string) : Q :=
  match t with
  | [] => 0%Q
  | (k', v) :: t' => if String.eqb k' k then v else table_score t' k
  end.

Definition qubo_of_table (t : list (string * Q)) : QUBO :=
  {| energy := fun b => table_score t (BitVector_str b) |}.

Definition qubo_tie : QUBO :=
  qubo_of_table [("00", 2%Q); ("01", 1%Q); ("10", 1%Q); ("11", 5%Q)]%string.

Definition qubo_strict : QUBO :=
  qubo_of_table [("00", 2%Q); ("01", 1%Q); ("10", 0.5%Q); ("11", 5%Q)]%string.

Definition world_example : world :=
  World [PyList [AScalar 0.1%Q; AScalar 0.2%Q; AScalar 0.3%Q];
         NdArray (ASeq [AScalar 0.4%Q; AScalar 0.5%Q; AScalar 0.6%Q; AScalar 0.7%Q]);
         PyList [AScalar 3%Q; AScalar 2%Q];
         PyList [ASeq [AScalar 1%Q; AScalar 2%Q]; ASeq [AScalar 3%Q; AScalar 4%Q]]]
        [].

Definition properties_example : gmap string pyval :=
  <["init_beta" := VRef 0%nat]>
  (<["init_gamma" := VRef 0%nat]>
  (<["final_beta" := VRef 0%nat]>
  (<["final_gamma" := VRef 1%nat]>
  (<["expval_history" := VRef 2%nat]>
  (<["training_backend" := VConfig "training"]>
  (<["evaluation_backend" := VConfig "evaluation"]>
  (<["optimizer" := VConfig "optimizer"]> ∅))))))).

(** The [Result] that [from_result] builds from [raw_example] with the
    scores of [qubo_tie], and the one it builds from {"01": 4, "11": 2}. *)
Definition result_example : QAOAResult.t :=
  QAOAResult.mk [false; true] 1%Q
    (mkFreq [[false; false]; [false; true]; [true; false]; [true; true]]
            [2%Q; 1%Q; 1%Q; 5%Q] [5; 3; 3; 1])
    9%nat 10%nat 11%nat 12%nat 13%nat
    (VConfig "training") (VConfig "evaluation") (VConfig "optimizer").

Definition raw_sparse : Mapping := [("01", 4); ("11", 2)]%string.

Definition result_sparse : QAOAResult.t :=
  QAOAResult.mk [false; true] 1%Q
    (mkFreq [[false; true]; [true; true]] [1%Q; 5%Q] [4; 2])
    9%nat 10%nat 11%nat 12%nat 13%nat
    (VConfig "training") (VConfig "evaluation") (VConfig "optimizer").

(** A [Result] whose table holds a candidate longer than the best
    bitvector. *)
Definition result_mixed_lengths : QAOAResult.t :=
  QAOAResult.mk [true] 1%Q
    (mkFreq [[true]; [true; false]] [1%Q; 2%Q] [4; 2])
    9%nat 10%nat 11%nat 12%nat 13%nat
    (VConfig "training") (VConfig "evaluation") (VConfig "optimizer").

(** A [Result] with one 0-bit candidate, as [from_result] builds it from the
    map {"": 1}. *)
Definition raw_zero_bits : Mapping := [(""%string, 1)].

(** * Properties *)

(** ** The monad *)

Lemma bind_Ok {A B} (m : M A) (k : A -> M B) w b w' :
  bind m k w = Ok (b, w') ->
  exists a w1, m w = Ok (a, w1) /\ k a w1 = Ok (b, w').
Proof.
  unfold bind. destruct (m w) as [[a w1]|e]; [|discriminate].
  intros H. exists a, w1. split; [reflexivity|exact H].
Qed.

Lemma bind_Raise {A B} (m : M A) (k : A -> M B) w e :
  bind m k w = Raise e ->
  m w = Raise e \/ exists a w1, m w = Ok (a, w1) /\ k a w1 = Raise e.
Proof.
  unfold bind. destruct (m w) as [[a w1]|e']; intros H.
  - right. exists a, w1. split; [reflexivity|exact H].
  - left. injection H as ->. reflexivity.
Qed.

Lemma bind_step {A B} (m : M A) (k : A -> M B) w a w1 :
  m w = Ok (a, w1) -> bind m k w = k a w1.
Proof. unfold bind. intros ->. reflexivity. Qed.

(** ** The selection loop *)

Lemma Qltb_lt x y : Qltb x y = true <-> (x < y)%Q.
Proof.
  unfold Qltb. rewrite negb_true_iff, <- not_true_iff_false, Qle_bool_iff.
  split; [apply Qnot_le_lt | apply Qlt_not_le].
Qed.

Lemma Qltb_ge x y : Qltb x y = false <-> (y <= x)%Q.
Proof.
  unfold Qltb. rewrite negb_false_iff. apply Qle_bool_iff.
Qed.

Lemma best_step_first e : best_step (None, None, None) e = chosen e.
Proof. destruct e as [[b v] n]. reflexivity. Qed.

Lemma best_step_chosen e x :
  best_step (chosen e) x =
  if Qltb (score x) (score e)
     || (Qeq_bool (score x) (score e) && (count e <? count x))
  then chosen x else chosen e.
Proof. destruct e as [[b v] n], x as [[b' v'] n']. reflexivity. Qed.

Lemma best_at_singleton e : best_at [e] 0 e.
Proof.
  repeat split.
  - intros [|j] e' H; simpl in H; [|discriminate].
    injection H as <-. apply Qle_refl.
  - intros [|j] e' H _; simpl in H; [|discriminate].
    injection H as <-. lia.
  - intros; lia.
Qed.

Lemma lookup_snoc_cases {A} (es : list A) (x : A) j e' :
  (es ++ [x]) !! j = Some e' ->
  es !! j = Some e' \/ (j = length es /\ e' = x).
Proof.
  intros H. destruct (decide (j < length es)%nat) as [Hlt|Hge].
  - left. rewrite lookup_app_l in H by exact Hlt. exact H.
  - right. rewrite lookup_app_r in H by lia.
    destruct (j - length es)%nat as [|k] eqn:Hk; simpl in H; [|discriminate].
    split; [lia|congruence].
Qed.

(** The running best is replaced by the new entry [x]. *)
Lemma best_at_replace es i e x :
  best_at es i e ->
  ((score x < score e)%Q \/ ((score x == score e)%Q /\ count e < count x)) ->
  best_at (es ++ [x]) (length es) x.
Proof.
  intros (Hi & Hmin & Hocc & Hfirst) Hx.
  assert (Hle : (score x <= score e)%Q).
  { destruct Hx as [Hlt|[Heq _]].
    - apply Qlt_le_weak, Hlt.
    - rewrite Heq. apply Qle_refl. }
  repeat split.
  - rewrite lookup_app_r by lia. rewrite Nat.sub_diag. reflexivity.
  - intros j e' Hj. apply lookup_snoc_cases in Hj as [Hj|[_ ->]].
    + eapply Qle_trans; [exact Hle | eapply Hmin, Hj].
    + apply Qle_refl.
  - intros j e' Hj Heq. apply lookup_snoc_cases in Hj as [Hj|[_ ->]]; [|lia].
    destruct Hx as [Hlt|[Hxe Hc]].
    + exfalso. specialize (Hmin j e' Hj). rewrite Heq in Hmin.
      exact (Qlt_not_le _ _ Hlt Hmin).
    + assert (count e' <= count e); [|lia].
      eapply Hocc; [exact Hj|]. rewrite Heq. exact Hxe.
  - intros j e' Hj Heq Hc. apply lookup_snoc_cases in Hj as [Hj|[-> _]]; [|lia].
    exfalso. destruct Hx as [Hlt|[Hxe Hcx]].
    + specialize (Hmin j e' Hj). rewrite Heq in Hmin.
      exact (Qlt_not_le _ _ Hlt Hmin).
    + assert (count e' <= count e); [|lia].
      eapply Hocc; [exact Hj|]. rewrite Heq. exact Hxe.
Qed.

(** The running best is kept. *)
Lemma best_at_keep es i e x :
  best_at es i e ->
  (score e <= score x)%Q ->
  ((score x == score e)%Q -> count x <= count e) ->
  best_at (es ++ [x]) i e.
Proof.
  intros (Hi & Hmin & Hocc & Hfirst) Hle Hc.
  assert (i < length es)%nat by (eapply lookup_lt_Some, Hi).
  repeat split.
  - rewrite lookup_app_l by lia. exact Hi.
  - intros j e' Hj. apply lookup_snoc_cases in Hj as [Hj|[_ ->]].
    + eapply Hmin, Hj.
    + exact Hle.
  - intros j e' Hj Heq. apply lookup_snoc_cases in Hj as [Hj|[_ ->]].
    + eapply Hocc; [exact Hj|exact Heq].
    + apply Hc, Heq.
  - intros j e' Hj Heq Hce. apply lookup_snoc_cases in Hj as [Hj|[-> _]].
    + eapply Hfirst; [exact Hj|exact Heq|exact Hce].
    + lia.
Qed.

(** The loop invariant: before the first entry all three variables are
    [None]; afterwards they hold the best entry of the prefix scanned. *)
Lemma fold_best_step es :
  (es = [] /\ fold_left best_step es (None, None, None) = (None, None, None)) \/
  (exists i e, fold_left best_step es (None, None, None) = chosen e /\
               best_at es i e).
Proof.
  induction es as [|x es IH] using rev_ind.
  - left. split; reflexivity.
  - right. rewrite fold_left_app. simpl.
    destruct IH as [[-> ->]|(i & e & -> & Hbest)].
    + exists 0%nat, x. split; [apply best_step_first|apply best_at_singleton].
    + rewrite best_step_chosen.
      destruct (Qltb (score x) (score e)) eqn:Hlt; simpl.
      * exists (length es), x. split; [reflexivity|].
        eapply best_at_replace; [exact Hbest|]. left. apply Qltb_lt, Hlt.
      * apply Qltb_ge in Hlt.
        destruct (Qeq_bool (score x) (score e)) eqn:Heq; simpl.
        -- apply Qeq_bool_iff in Heq.
           destruct (count e <? count x) eqn:Hc.
           ++ exists (length es), x. split; [reflexivity|].
              eapply best_at_replace; [exact Hbest|]. right.
              split; [exact Heq|lia].
           ++ exists i, e. split; [reflexivity|].
              apply best_at_keep; [exact Hbest|exact Hlt|]. intros _. lia.
        -- exists i, e. split; [reflexivity|].
           apply best_at_keep; [exact Hbest|exact Hlt|].
           intros Hq. apply Qeq_bool_neq in Heq. contradiction.
Qed.

(** ** List comprehensions *)

Lemma traverse_lift_inv {A B} (f : A -> result B) xs ys w w' :
  traverse (fun x => lift (f x)) xs w = Ok (ys, w') ->
  Forall2 (fun x y => f x = Ok y) xs ys /\ w' = w.
Proof.
  revert ys w'. induction xs as [|x xs IH]; intros ys w' H.
  - injection H as <- <-. split; constructor.
  - simpl in H. apply bind_Ok in H as (y & w1 & Hy & H).
    apply bind_Ok in H as (ys' & w2 & Hys & H). injection H as <- <-.
    unfold lift in Hy. destruct (f x) as [y'|] eqn:Hfx; [|discriminate].
    injection Hy as <- <-. apply IH in Hys as [Hall ->].
    split; [constructor; assumption|reflexivity].
Qed.

Lemma traverse_lift_Ok {A B} (f : A -> result B) xs ys w :
  Forall2 (fun x y => f x = Ok y) xs ys ->
  traverse (fun x => lift (f x)) xs w = Ok (ys, w).
Proof.
  induction 1 as [|x y xs ys Hxy _ IH]; [reflexivity|].
  simpl. unfold bind at 1. unfold lift at 1. rewrite Hxy.
  unfold bind. rewrite IH. reflexivity.
Qed.

Lemma traverse_lift_Raise {A B} (f : A -> result B) xs w e :
  traverse (fun x => lift (f x)) xs w = Raise e ->
  exists x, x ∈ xs /\ f x = Raise e.
Proof.
  induction xs as [|x xs IH]; [discriminate|].
  simpl. intros H. apply bind_Raise in H as [H|(y & w1 & Hy & H)].
  - exists x. split; [left|]. unfold lift in H.
    destruct (f x); [discriminate|]. injection H as ->. reflexivity.
  - unfold lift in Hy. destruct (f x); [|discriminate]. injection Hy as <- <-.
    apply bind_Raise in H as [H|(ys & w2 & _ & H)]; [|discriminate].
    destruct (IH H) as (x' & Hin & Hx'). exists x'. split; [right|]; assumption.
Qed.

Lemma traverse_evaluate qubo bs w :
  traverse (evaluate qubo) bs w =
  Ok (map (energy qubo) bs, World (heap w) (evals w ++ bs)).
Proof.
  revert w. induction bs as [|b bs IH]; intros w.
  - simpl. unfold ret. rewrite app_nil_r. destruct w; reflexivity.
  - simpl. unfold bind at 1. unfold evaluate at 1. unfold bind.
    rewrite IH. simpl. rewrite <- app_assoc. reflexivity.
Qed.

(** ** Bitstrings *)

Lemma BitVector_of_str_Ok s :
  is_bitstring s = true -> exists b, BitVector_of_str s = Ok b.
Proof.
  induction s as [|c s IH]; simpl; intros H.
  - eexists; reflexivity.
  - apply andb_true_iff in H as [Hc Hs]. destruct (IH Hs) as [b ->].
    unfold bit_of_char. destruct (Ascii.eqb c "0"); [eexists; reflexivity|].
    simpl in Hc. rewrite Hc. eexists; reflexivity.
Qed.

Lemma BitVector_of_str_inv s b :
  BitVector_of_str s = Ok b ->
  is_bitstring s = true /\ BitVector_str b = s /\ length b = String.length s.
Proof.
  revert b. induction s as [|c s IH]; simpl; intros b H.
  - injection H as <-. repeat split.
  - unfold bit_of_char in H.
    destruct (Ascii.eqb c "0") eqn:H0; [|destruct (Ascii.eqb c "1") eqn:H1];
      try discriminate;
      destruct (BitVector_of_str s) as [bs|] eqn:Hs; try discriminate;
      injection H as <-; destruct (IH bs eq_refl) as (-> & Hstr & Hlen); simpl;
      rewrite Hstr, Hlen.
    + apply Ascii.eqb_eq in H0 as ->. repeat split.
    + apply Ascii.eqb_eq in H1 as ->. repeat split.
Qed.

(** ** The raw sample map *)

Lemma getitem_lookup (m : Mapping) i k n :
  dict_wf m -> m !! i = Some (k, n) -> getitem m k = Ok n.
Proof.
  unfold dict_wf, keys. revert i. induction m as [|[k' v] m IH]; intros i Hwf Hi.
  - discriminate.
  - simpl in Hwf. apply NoDup_cons in Hwf as [Hnotin Hwf]. simpl.
    destruct i as [|i]; simpl in Hi.
    + injection Hi as -> ->. rewrite String.eqb_refl. reflexivity.
    + destruct (String.eqb k' k) eqn:Hk.
      * apply String.eqb_eq in Hk as ->. exfalso. apply Hnotin.
        apply list_elem_of_fmap. exists (k, n). split; [reflexivity|].
        eapply list_elem_of_lookup_2, Hi.
      * eapply IH; [exact Hwf|exact Hi].
Qed.

Lemma getitem_key (m : Mapping) k :
  k ∈ keys m -> exists n, getitem m k = Ok n.
Proof.
  unfold keys. induction m as [|[k' v] m IH]; simpl; intros H.
  - apply elem_of_nil in H as [].
  - destruct (String.eqb k' k) eqn:Hk; [eexists; reflexivity|].
    apply elem_of_cons in H as [->|H]; [|exact (IH H)].
    rewrite String.eqb_refl in Hk. discriminate.
Qed.

Lemma getitem_keys (m : Mapping) :
  exists ns, Forall2 (fun k n => getitem m k = Ok n) (keys m) ns.
Proof.
  assert (H : forall ks, (forall k, k ∈ ks -> k ∈ keys m) ->
            exists ns, Forall2 (fun k n => getitem m k = Ok n) ks ns).
  { induction ks as [|k ks IH]; intros Hks.
    - exists []. constructor.
    - destruct (getitem_key m k) as [n Hn]; [apply Hks; left|].
      destruct IH as [ns Hns]; [intros k' Hk'; apply Hks; right; exact Hk'|].
      exists (n :: ns). constructor; assumption. }
  apply H. auto.
Qed.

(** ** The frequency table of from_result *)

Lemma Freq_new_Ok bvs es ns :
  length bvs = length es -> length es = length ns ->
  Freq_new bvs es ns = Ok (mkFreq bvs es ns).
Proof.
  intros H1 H2. unfold Freq_new.
  rewrite (proj2 (Nat.eqb_eq _ _) H1), (proj2 (Nat.eqb_eq _ _) H2). reflexivity.
Qed.

Lemma build_freq_inv qubo raw w f w' :
  QAOAResult.build_freq qubo raw w = Ok (f, w') ->
  Forall2 (fun k b => BitVector_of_str k = Ok b) (keys raw) (bitvectors f) /\
  energies f = map (energy qubo) (bitvectors f) /\
  Forall2 (fun k n => getitem raw k = Ok n) (keys raw) (num_occurrences f) /\
  heap w' = heap w /\
  evals w' = evals w ++ bitvectors f.
Proof.
  unfold QAOAResult.build_freq. intros H.
  apply bind_Ok in H as (bvs & w1 & Hb & H). apply traverse_lift_inv in Hb as [Hb ->].
  rewrite (bind_step _ _ _ _ _ (traverse_evaluate qubo bvs w)) in H.
  apply bind_Ok in H as (ns & w2 & Hn & H). apply traverse_lift_inv in Hn as [Hn ->].
  unfold lift, Freq_new in H.
  destruct (_ && _); [|discriminate]. injection H as <- <-. simpl.
  repeat split; assumption.
Qed.

Lemma build_freq_Ok qubo raw w :
  Forall (fun k => is_bitstring k = true) (keys raw) ->
  exists f w', QAOAResult.build_freq qubo raw w = Ok (f, w').
Proof.
  intros Hbits.
  assert (Hb : exists bvs,
             Forall2 (fun k b => BitVector_of_str k = Ok b) (keys raw) bvs).
  { induction Hbits as [|k ks Hk _ [bvs IH]]; [exists []; constructor|].
    destruct (BitVector_of_str_Ok k Hk) as [b Hb].
    exists (b :: bvs). constructor; assumption. }
  destruct Hb as [bvs Hb]. destruct (getitem_keys raw) as [ns Hn].
  unfold QAOAResult.build_freq.
  rewrite (bind_step _ _ _ _ _ (traverse_lift_Ok _ _ _ w Hb)).
  rewrite (bind_step _ _ _ _ _ (traverse_evaluate qubo bvs w)).
  rewrite (bind_step _ _ _ _ _ (traverse_lift_Ok _ _ _ _ Hn)).
  unfold lift. rewrite Freq_new_Ok.
  - eexists _, _. reflexivity.
  - rewrite length_map. reflexivity.
  - rewrite length_map, <- (Forall2_length _ _ _ Hb). apply (Forall2_length _ _ _ Hn).
Qed.

Lemma Freq_iter_length_built qubo raw w f w' :
  QAOAResult.build_freq qubo raw w = Ok (f, w') ->
  length (Freq_iter f) = length raw.
Proof.
  intros H. apply build_freq_inv in H as (Hb & He & Hn & _).
  apply Forall2_length in Hb, Hn. unfold keys in *. rewrite length_map in *.
  unfold Freq_iter. rewrite !length_zip_with, He, length_map. lia.
Qed.

(** ** The store: list, check_arraylike, the constructor *)

Lemma dict_get_inv (d : gmap string pyval) k w v w' :
  dict_get d k w = Ok (v, w') -> d !! k = Some v /\ w' = w.
Proof.
  unfold dict_get. destruct (d !! k) as [v0|]; [|discriminate].
  intros H. injection H as <- <-. split; reflexivity.
Qed.

Lemma py_list_inv v w v' w' :
  py_list v w = Ok (v', w') ->
  exists xs, items (heap w) v = Some xs /\
             v' = VRef (length (heap w)) /\
             w' = World (heap w ++ [PyList xs]) (evals w).
Proof.
  destruct v as [l| |]; simpl; [|discriminate..].
  unfold bind, deref. destruct (heap w !! l) as [[xs|[x|xs]]|]; try discriminate;
    unfold alloc, ret; intros H; injection H as <- <-; exists xs; repeat split.
Qed.

Lemma get_copy_inv (d : gmap string pyval) k w v' w' :
  (v <- dict_get d k ;; py_list v) w = Ok (v', w') ->
  exists v xs, d !! k = Some v /\ items (heap w) v = Some xs /\
               v' = VRef (length (heap w)) /\
               w' = World (heap w ++ [PyList xs]) (evals w).
Proof.
  intros H. apply bind_Ok in H as (v & w1 & Hv & H).
  apply dict_get_inv in Hv as [Hv ->].
  apply py_list_inv in H as (xs & Hxs & -> & ->). exists v, xs. repeat split; assumption.
Qed.

Lemma check_arraylike_inv v name w l w' :
  check_arraylike v name w = Ok (l, w') ->
  exists xs, items (heap w) v = Some xs /\ forallb is_scalar xs = true /\
    ((l = length (heap w) /\
      w' = World (heap w ++ [NdArray (ASeq xs)]) (evals w)) \/
     (v = VRef l /\ heap w !! l = Some (NdArray (ASeq xs)) /\ w' = w)).
Proof.
  destruct v as [l0| |]; simpl; [|discriminate..].
  unfold bind, deref. destruct (heap w !! l0) as [[xs|[x|xs]]|] eqn:Hl;
    try discriminate; destruct (forallb is_scalar xs) eqn:Hs; try discriminate;
    unfold alloc, ret; intros H; injection H as <- <-; exists xs;
    (split; [reflexivity|split; [exact Hs|]]).
  - left. split; reflexivity.
  - right. repeat split. exact Hl.
Qed.

(** On a list object the check allocates a new array. *)
Lemma check_arraylike_list l name w xs :
  heap w !! l = Some (PyList xs) ->
  check_arraylike (VRef l) name w =
  if forallb is_scalar xs
  then Ok (length (heap w), World (heap w ++ [NdArray (ASeq xs)]) (evals w))
  else Raise (ShapeError name).
Proof.
  intros H. simpl. unfold bind, deref. rewrite H.
  destruct (forallb is_scalar xs); reflexivity.
Qed.

Lemma check_arraylike_Ok v name w :
  one_dimensional (heap w) v = true ->
  exists l w', check_arraylike v name w = Ok (l, w') /\
               (heap w `prefix_of` heap w') /\ evals w' = evals w.
Proof.
  unfold one_dimensional. destruct v as [l| |]; simpl; [|discriminate..].
  unfold bind, deref. destruct (heap w !! l) as [[xs|[x|xs]]|]; try discriminate;
    intros ->; unfold alloc, ret; eexists _, _; (split; [reflexivity|]); simpl;
    split; try reflexivity.
  apply prefix_app_r. reflexivity.
Qed.

Lemma check_arraylike_fails v name w :
  one_dimensional (heap w) v = false ->
  exists e, check_arraylike v name w = Raise e.
Proof.
  unfold one_dimensional. destruct v as [l| |]; simpl;
    [|eexists; reflexivity..].
  unfold bind, deref. destruct (heap w !! l) as [[xs|[x|xs]]|];
    try (intros _; eexists; reflexivity); intros ->; eexists; reflexivity.
Qed.

Lemma init_inv bb bv f a b c d e tb eb opt w r w' :
  QAOAResult.__init__ bb bv f a b c d e tb eb opt w = Ok (r, w') ->
  exists l1 w1 l2 w2 l3 w3 l4 w4 l5,
    check_arraylike a "init_beta" w = Ok (l1, w1) /\
    check_arraylike b "init_gamma" w1 = Ok (l2, w2) /\
    check_arraylike c "final_beta" w2 = Ok (l3, w3) /\
    check_arraylike d "final_gamma" w3 = Ok (l4, w4) /\
    check_arraylike e "expval_history" w4 = Ok (l5, w') /\
    r = QAOAResult.mk bb bv f l1 l2 l3 l4 l5 tb eb opt.
Proof.
  unfold QAOAResult.__init__. intros H.
  apply bind_Ok in H as (l1 & w1 & H1 & H).
  apply bind_Ok in H as (l2 & w2 & H2 & H).
  apply bind_Ok in H as (l3 & w3 & H3 & H).
  apply bind_Ok in H as (l4 & w4 & H4 & H).
  apply bind_Ok in H as (l5 & w5 & H5 & H).
  injection H as <- <-.
  exists l1, w1, l2, w2, l3, w3, l4, w4, l5. repeat split; assumption.
Qed.

(** What a successful call of [from_result] went through: the table, the
    selection, the five copies made by [list], and the constructor. *)
Lemma from_result_inv qubo raw (props : gmap string pyval) w r w' :
  QAOAResult.from_result qubo raw props w = Ok (r, w') ->
  exists f w1 bb bv occ v1 x1 v2 x2 v3 x3 v4 x4 v5 x5 tb eb opt,
    QAOAResult.build_freq qubo raw w = Ok (f, w1) /\
    find_best f = (Some bb, Some bv, occ) /\
    let h := heap w1 in
    props !! "init_beta" = Some v1 /\ items h v1 = Some x1 /\
    props !! "init_gamma" = Some v2 /\
    items (h ++ [PyList x1]) v2 = Some x2 /\
    props !! "final_beta" = Some v3 /\
    items (h ++ [PyList x1; PyList x2]) v3 = Some x3 /\
    props !! "final_gamma" = Some v4 /\
    items (h ++ [PyList x1; PyList x2; PyList x3]) v4 = Some x4 /\
    props !! "expval_history" = Some v5 /\
    items (h ++ [PyList x1; PyList x2; PyList x3; PyList x4]) v5 = Some x5 /\
    QAOAResult.__init__ bb bv f
      (VRef (length h)) (VRef (length h + 1)%nat) (VRef (length h + 2)%nat)
      (VRef (length h + 3)%nat) (VRef (length h + 4)%nat) tb eb opt
      (World (h ++ [PyList x1; PyList x2; PyList x3; PyList x4; PyList x5])
             (evals w1)) = Ok (r, w').
Proof.
  unfold QAOAResult.from_result. intros H.
  apply bind_Ok in H as (f & w1 & Hf & H).
  destruct (find_best f) as [[[bb|] [bv|]] occ] eqn:Hbest; try discriminate.
  apply bind_Ok in H as (a & wa & Ha & H).
  apply get_copy_inv in Ha as (v1 & x1 & Hv1 & Hx1 & -> & ->).
  apply bind_Ok in H as (b & wb & Hb & H).
  apply get_copy_inv in Hb as (v2 & x2 & Hv2 & Hx2 & -> & ->).
  apply bind_Ok in H as (c & wc & Hc & H).
  apply get_copy_inv in Hc as (v3 & x3 & Hv3 & Hx3 & -> & ->).
  apply bind_Ok in H as (d & wd & Hd & H).
  apply get_copy_inv in Hd as (v4 & x4 & Hv4 & Hx4 & -> & ->).
  apply bind_Ok in H as (e & we & He & H).
  apply get_copy_inv in He as (v5 & x5 & Hv5 & Hx5 & -> & ->).
  apply bind_Ok in H as (tb & wt & Ht & H). apply dict_get_inv in Ht as [_ ->].
  apply bind_Ok in H as (eb & wv & Hv & H). apply dict_get_inv in Hv as [_ ->].
  apply bind_Ok in H as (opt & wo & Ho & H). apply dict_get_inv in Ho as [_ ->].
  simpl in *. rewrite <- !app_assoc in *. simpl in *.
  rewrite !length_app in H. simpl in H.
  exists f, w1, bb, bv, occ, v1, x1, v2, x2, v3, x3, v4, x4, v5, x5, tb, eb, opt.
  repeat (split; [assumption|]). exact H.
Qed.

Lemma check_arraylike_evals v name w l w' :
  check_arraylike v name w = Ok (l, w') -> evals w' = evals w.
Proof.
  intros H. apply check_arraylike_inv in H as (xs & _ & _ & [[_ ->]|(_ & _ & ->)]);
    reflexivity.
Qed.

Lemma init_fields bb bv f a b c d e tb eb opt w r w' :
  QAOAResult.__init__ bb bv f a b c d e tb eb opt w = Ok (r, w') ->
  QAOAResult.best_bitvector r = bb /\ QAOAResult.best_value r = bv /\
  QAOAResult.freq r = f /\ evals w' = evals w.
Proof.
  intros H. apply init_inv in H
    as (l1 & w1 & l2 & w2 & l3 & w3 & l4 & w4 & l5 & H1 & H2 & H3 & H4 & H5 & ->).
  apply check_arraylike_evals in H1, H2, H3, H4, H5. simpl.
  repeat split. congruence.
Qed.

(** A successful build stores the table of lines 88-92 and the entry the
    loop selected, and evaluates the objective nowhere else. *)
Lemma from_result_fields qubo raw (props : gmap string pyval) w r w' :
  QAOAResult.from_result qubo raw props w = Ok (r, w') ->
  exists f w1 occ,
    QAOAResult.build_freq qubo raw w = Ok (f, w1) /\
    QAOAResult.freq r = f /\
    find_best f =
      (Some (QAOAResult.best_bitvector r), Some (QAOAResult.best_value r), occ) /\
    evals w' = evals w1.
Proof.
  intros H. apply from_result_inv in H
    as (f & w1 & bb & bv & occ & v1 & x1 & v2 & x2 & v3 & x3 & v4 & x4 & v5 & x5
        & tb & eb & opt & Hf & Hbest & H).
  simpl in H. destruct H as (_ & _ & _ & _ & _ & _ & _ & _ & _ & _ & H).
  apply init_fields in H as (-> & -> & -> & Hev). simpl in Hev.
  exists f, w1, occ. repeat split; assumption.
Qed.

(** ** C1: the best entry *)

(** C1.  For every non-empty raw sample map (with bitstring keys) the table
    is built and the selection loop of [from_result] returns one entry of
    it, at some position [i]: its score is minimal over the table; among the
    entries with that score it has the maximal occurrence count; and among the
    entries tied on both it is the first in the order of the map.  A [Result]
    built by [from_result] carries that entry as best bitvector and best
    value. *)
Theorem from_result_selects_best qubo (raw : Mapping) w :
  raw <> [] ->
  Forall (fun k => is_bitstring k = true) (keys raw) ->
  exists f w1 i e,
    QAOAResult.build_freq qubo raw w = Ok (f, w1) /\
    find_best f = (Some (candidate e), Some (score e), Some (count e)) /\
    Freq_iter f !! i = Some e /\
    (forall j e', Freq_iter f !! j = Some e' -> (score e <= score e')%Q) /\
    (forall j e', Freq_iter f !! j = Some e' ->
       (score e' == score e)%Q -> count e' <= count e) /\
    (forall j e', Freq_iter f !! j = Some e' ->
       (score e' == score e)%Q -> count e' = count e -> (i <= j)%nat) /\
    (forall props r w',
       QAOAResult.from_result qubo raw props w = Ok (r, w') ->
       QAOAResult.freq r = f /\
       QAOAResult.best_bitvector r = candidate e /\
       QAOAResult.best_value r = score e).
Proof.
  intros Hne Hbits.
  destruct (build_freq_Ok qubo raw w Hbits) as (f & w1 & Hf).
  pose proof (Freq_iter_length_built _ _ _ _ _ Hf) as Hlen.
  destruct (fold_best_step (Freq_iter f)) as [[Hnil _]|(i & e & Hbest & Hat)].
  { rewrite Hnil in Hlen. destruct raw; [contradiction|discriminate]. }
  destruct Hat as (Hi & Hmin & Hocc & Hfirst).
  exists f, w1, i, e. repeat (split; [assumption|]).
  intros props r w' Hr.
  apply from_result_fields in Hr as (f' & w1' & occ & Hf' & Hfreq & Hb' & _).
  rewrite Hf in Hf'. injection Hf' as <- <-.
  unfold find_best in Hb'. rewrite Hbest in Hb'. unfold chosen in Hb'.
  injection Hb' as <- <- _. repeat split. exact Hfreq.
Qed.

Lemma from_result_selects_best_witness :
  exists f w1 i e,
    QAOAResult.build_freq qubo_tie raw_example world_example = Ok (f, w1) /\
    find_best f = (Some (candidate e), Some (score e), Some (count e)) /\
    Freq_iter f !! i = Some e.
Proof.
  destruct (from_result_selects_best qubo_tie raw_example world_example)
    as (f & w1 & i & e & H1 & H2 & H3 & _).
  - discriminate.
  - repeat constructor.
  - exists f, w1, i, e. repeat split; assumption.
Defined.

(** ** C2: the empty raw sample map *)

Lemma dict_get_Raise (d : gmap string pyval) k w e :
  dict_get d k w = Raise e -> is_ValueError e = false.
Proof.
  unfold dict_get. destruct (d !! k); [discriminate|].
  intros H. injection H as <-. reflexivity.
Qed.

Lemma py_list_Raise v w e :
  py_list v w = Raise e -> is_ValueError e = false.
Proof.
  destruct v as [l| |]; simpl; unfold bind, deref, raise.
  - destruct (heap w !! l) as [[xs|[x|xs]]|]; try discriminate;
      intros H; injection H as <-; reflexivity.
  - intros H; injection H as <-; reflexivity.
  - intros H; injection H as <-; reflexivity.
Qed.

Lemma check_arraylike_Raise v name w e :
  check_arraylike v name w = Raise e -> is_ValueError e = false.
Proof.
  destruct v as [l| |]; simpl; unfold bind, deref, raise.
  - destruct (heap w !! l) as [[xs|[x|xs]]|];
      try destruct (forallb is_scalar xs); try discriminate;
      intros H; injection H as <-; reflexivity.
  - intros H; injection H as <-; reflexivity.
  - intros H; injection H as <-; reflexivity.
Qed.

(** Splits [H : (x <- m ;; k) w = Raise e] into the step that raised. *)
Ltac raise_cases H :=
  repeat match type of H with
         | bind _ _ _ = Raise _ =>
             apply bind_Raise in H as [H|(? & ? & _ & H)]
         end.

Lemma init_Raise bb bv f a b c d e tb eb opt w x :
  QAOAResult.__init__ bb bv f a b c d e tb eb opt w = Raise x ->
  is_ValueError x = false.
Proof.
  unfold QAOAResult.__init__. intros H. raise_cases H;
    try (eapply check_arraylike_Raise, H); discriminate.
Qed.

Lemma BitVector_of_str_Raise s e :
  BitVector_of_str s = Raise e -> e = ValueError "not a bit".
Proof.
  induction s as [|c s IH]; simpl; [discriminate|].
  unfold bit_of_char.
  destruct (Ascii.eqb c "0"); [|destruct (Ascii.eqb c "1")];
    try (destruct (BitVector_of_str s); [discriminate|];
         intros H; injection H as <-; apply IH; reflexivity).
  intros H; injection H as <-; reflexivity.
Qed.

Lemma getitem_Raise (m : Mapping) k e :
  getitem m k = Raise e -> e = KeyError k.
Proof.
  induction m as [|[k' v] m IH]; simpl.
  - intros H; injection H as <-; reflexivity.
  - destruct (String.eqb k' k); [discriminate|exact IH].
Qed.

Lemma build_freq_Raise qubo raw w e :
  QAOAResult.build_freq qubo raw w = Raise e -> e <> EmptyResultError.
Proof.
  unfold QAOAResult.build_freq. intros H.
  apply bind_Raise in H as [H|(bvs & w1 & _ & H)].
  { apply traverse_lift_Raise in H as (s & _ & H).
    apply BitVector_of_str_Raise in H as ->. discriminate. }
  rewrite (bind_step _ _ _ _ _ (traverse_evaluate qubo bvs w1)) in H.
  apply bind_Raise in H as [H|(ns & w2 & _ & H)].
  { apply traverse_lift_Raise in H as (s & _ & H).
    apply getitem_Raise in H as ->. discriminate. }
  unfold lift, Freq_new in H. destruct (_ && _); [discriminate|].
  injection H as <-. discriminate.
Qed.

(** C2.  On the empty raw sample map [from_result] raises the error of
    line 111 (the specification's [EmptyResultError]) and returns no
    [Result]; on a non-empty map it never raises that error. *)
Theorem from_result_empty_error :
  (forall qubo props w,
     QAOAResult.from_result qubo [] props w = Raise EmptyResultError) /\
  (forall qubo (raw : Mapping) props w,
     raw <> [] ->
     QAOAResult.from_result qubo raw props w <> Raise EmptyResultError).
Proof.
  split.
  - intros qubo props w. unfold QAOAResult.from_result, QAOAResult.build_freq.
    simpl. unfold bind, ret, lift. simpl. reflexivity.
  - intros qubo raw props w Hne H. unfold QAOAResult.from_result in H.
    apply bind_Raise in H as [H|(f & w1 & Hf & H)].
    { exact (build_freq_Raise _ _ _ _ H eq_refl). }
    pose proof (Freq_iter_length_built _ _ _ _ _ Hf) as Hlen.
    unfold find_best in H.
    destruct (fold_best_step (Freq_iter f)) as [[Hnil _]|(i & e & Hbest & _)].
    { rewrite Hnil in Hlen. destruct raw; [contradiction|discriminate]. }
    rewrite Hbest in H. unfold chosen in H.
    assert (Hv : is_ValueError EmptyResultError = false); [|discriminate Hv].
    raise_cases H;
      first [ eapply dict_get_Raise, H | eapply py_list_Raise, H
            | eapply init_Raise, H ].
Qed.

Lemma from_result_empty_error_witness :
  QAOAResult.from_result qubo_tie [] properties_example world_example
    = Raise EmptyResultError /\
  QAOAResult.from_result qubo_tie raw_example properties_example world_example
    <> Raise EmptyResultError.
Proof.
  split.
  - apply (proj1 from_result_empty_error).
  - apply (proj2 from_result_empty_error). discriminate.
Defined.

(** ** C6: the frequency table *)

Lemma Freq_iter_lookup f i b v n :
  bitvectors f !! i = Some b -> energies f !! i = Some v ->
  num_occurrences f !! i = Some n ->
  Freq_iter f !! i = Some (b, v, n).
Proof.
  intros Hb Hv Hn. unfold Freq_iter.
  rewrite !lookup_zip_with, Hb, Hv, Hn. reflexivity.
Qed.

Lemma Freq_iter_candidates f :
  length (bitvectors f) = length (energies f) ->
  length (energies f) = length (num_occurrences f) ->
  map candidate (Freq_iter f) = bitvectors f.
Proof.
  destruct f as [bs es ns]. unfold Freq_iter. simpl.
  revert es ns. induction bs as [|b bs IH]; intros [|e es] [|n ns] H1 H2;
    simpl in *; try discriminate; try reflexivity.
  unfold candidate at 1. simpl. f_equal. apply IH; lia.
Qed.

(** C6.  For every raw sample map (a dictionary with bitstring keys)
    [from_result] builds a frequency table with one entry per key, in the
    order of the map: the entry at position [i] holds the bitvector of the
    i-th key, the objective at that bitvector and the count stored under the
    key.  The objective is evaluated once per entry, in table order, and a
    successful [from_result] keeps this table and evaluates nothing more. *)
Theorem from_result_frequency_table qubo (raw : Mapping) w :
  dict_wf raw ->
  Forall (fun k => is_bitstring k = true) (keys raw) ->
  exists f w1,
    QAOAResult.build_freq qubo raw w = Ok (f, w1) /\
    length (Freq_iter f) = length raw /\
    (forall i k n, raw !! i = Some (k, n) ->
       exists b, BitVector_of_str k = Ok b /\ BitVector_str b = k /\
                 Freq_iter f !! i = Some (b, energy qubo b, n)) /\
    evals w1 = evals w ++ map candidate (Freq_iter f) /\
    (forall props r w',
       QAOAResult.from_result qubo raw props w = Ok (r, w') ->
       QAOAResult.freq r = f /\ evals w' = evals w1).
Proof.
  intros Hwf Hbits.
  destruct (build_freq_Ok qubo raw w Hbits) as (f & w1 & Hf).
  exists f, w1. split; [exact Hf|].
  split; [eapply Freq_iter_length_built, Hf|].
  pose proof (build_freq_inv _ _ _ _ _ Hf) as (Hb & He & Hn & _ & Hev).
  split; [|split].
  - intros i k n Hi.
    assert (Hk : keys raw !! i = Some k).
    { unfold keys. change (map fst raw) with (fst <$> raw).
      rewrite list_lookup_fmap, Hi. reflexivity. }
    destruct (Forall2_lookup_l _ _ _ _ _ Hb Hk) as (b & Hbi & Hkb).
    destruct (Forall2_lookup_l _ _ _ _ _ Hn Hk) as (n' & Hni & Hkn).
    rewrite (getitem_lookup raw i k n Hwf Hi) in Hkn. injection Hkn as <-.
    exists b. split; [exact Hkb|].
    split; [apply (BitVector_of_str_inv k b Hkb)|].
    apply Freq_iter_lookup; [exact Hbi| |exact Hni].
    rewrite He. change (map (energy qubo) (bitvectors f))
      with (energy qubo <$> bitvectors f).
    rewrite list_lookup_fmap, Hbi. reflexivity.
  - rewrite Hev. f_equal. symmetry. apply Freq_iter_candidates.
    + rewrite He, length_map. reflexivity.
    + rewrite He, length_map, <- (Forall2_length _ _ _ Hb).
      apply (Forall2_length _ _ _ Hn).
  - intros props r w' Hr.
    apply from_result_fields in Hr as (f' & w1' & occ & Hf' & Hfreq & _ & Hev').
    rewrite Hf in Hf'. injection Hf' as <- <-. split; assumption.
Qed.

Lemma from_result_frequency_table_witness :
  exists f w1,
    QAOAResult.build_freq qubo_tie raw_example world_example = Ok (f, w1) /\
    length (Freq_iter f) = 4%nat /\
    evals w1 = map candidate (Freq_iter f).
Proof.
  destruct (from_result_frequency_table qubo_tie raw_example world_example)
    as (f & w1 & H1 & H2 & _ & H3 & _).
  - unfold dict_wf. apply (bool_decide_unpack _). vm_compute. exact I.
  - repeat constructor.
  - exists f, w1. repeat split; assumption.
Defined.

(** ** C7: the two examples *)

Lemma build_freq_example qubo w :
  QAOAResult.build_freq qubo raw_example w =
  Ok (mkFreq [[false; false]; [false; true]; [true; false]; [true; true]]
             (map (energy qubo)
                [[false; false]; [false; true]; [true; false]; [true; true]])
             [5; 3; 3; 1],
      World (heap w)
            (evals w ++
             [[false; false]; [false; true]; [true; false]; [true; true]])).
Proof.
  unfold QAOAResult.build_freq.
  rewrite (bind_step _ _ _
             [[false; false]; [false; true]; [true; false]; [true; true]] w)
    by reflexivity.
  rewrite (bind_step _ _ _ _ _ (traverse_evaluate qubo _ w)).
  reflexivity.
Qed.

Lemma from_result_example qubo s00 s01 s10 s11 b v n w :
  scores qubo s00 s01 s10 s11 ->
  fold_left best_step
    [([false; false], s00, 5); ([false; true], s01, 3);
     ([true; false], s10, 3); ([true; true], s11, 1)] (None, None, None)
    = (Some b, Some v, Some n) ->
  exists f w1,
    QAOAResult.build_freq qubo raw_example w = Ok (f, w1) /\
    find_best f = (Some b, Some v, Some n) /\
    forall props r w',
      QAOAResult.from_result qubo raw_example props w = Ok (r, w') ->
      QAOAResult.best_bitvector r = b /\ QAOAResult.best_value r = v.
Proof.
  intros (H00 & H01 & H10 & H11) Hfold.
  eexists _, _. split; [apply build_freq_example|].
  assert (Hbest : find_best
    (mkFreq [[false; false]; [false; true]; [true; false]; [true; true]]
       (map (energy qubo)
          [[false; false]; [false; true]; [true; false]; [true; true]])
       [5; 3; 3; 1]) = (Some b, Some v, Some n)).
  { unfold find_best, Freq_iter. simpl. rewrite H00, H01, H10, H11.
    exact Hfold. }
  split; [exact Hbest|].
  intros props r w' Hr.
  apply from_result_fields in Hr as (f' & w1' & occ & Hf' & _ & Hb' & _).
  rewrite build_freq_example in Hf'.
  assert (Hf : f' = mkFreq
    [[false; false]; [false; true]; [true; false]; [true; true]]
    (map (energy qubo)
       [[false; false]; [false; true]; [true; false]; [true; true]])
    [5; 3; 3; 1]) by congruence.
  rewrite Hf, Hbest in Hb'. injection Hb' as <- <- _. split; reflexivity.
Qed.

(** C7.  On the map {"00": 5, "01": 3, "10": 3, "11": 1}: with the scores
    2, 1, 1, 5 the selection returns "01" with score 1 (the entry "10" ties
    on score and count and comes later); with the scores 2, 1, 0.5, 5 it
    returns "10" with score 0.5.  A [Result] built by [from_result] has
    these as best bitvector and best value. *)
Theorem from_result_worked_examples :
  (forall qubo w,
     scores qubo 2%Q 1%Q 1%Q 5%Q ->
     exists f w1,
       QAOAResult.build_freq qubo raw_example w = Ok (f, w1) /\
       find_best f = (Some [false; true], Some 1%Q, Some 3) /\
       forall props r w',
         QAOAResult.from_result qubo raw_example props w = Ok (r, w') ->
         BitVector_str (QAOAResult.best_bitvector r) = "01"%string /\
         QAOAResult.best_value r = 1%Q) /\
  (forall qubo w,
     scores qubo 2%Q 1%Q 0.5%Q 5%Q ->
     exists f w1,
       QAOAResult.build_freq qubo raw_example w = Ok (f, w1) /\
       find_best f = (Some [true; false], Some 0.5%Q, Some 3) /\
       forall props r w',
         QAOAResult.from_result qubo raw_example props w = Ok (r, w') ->
         BitVector_str (QAOAResult.best_bitvector r) = "10"%string /\
         QAOAResult.best_value r = 0.5%Q).
Proof.
  split; intros qubo w Hs.
  - destruct (from_result_example qubo _ _ _ _ [false; true] 1%Q 3 w Hs eq_refl)
      as (f & w1 & Hf & Hbest & Hr).
    exists f, w1. repeat (split; [assumption|]).
    intros props r w' H. destruct (Hr props r w' H) as [-> ->].
    split; reflexivity.
  - destruct (from_result_example qubo _ _ _ _ [true; false] 0.5%Q 3 w Hs eq_refl)
      as (f & w1 & Hf & Hbest & Hr).
    exists f, w1. repeat (split; [assumption|]).
    intros props r w' H. destruct (Hr props r w' H) as [-> ->].
    split; reflexivity.
Qed.

Lemma from_result_worked_examples_witness :
  (exists r w',
     QAOAResult.from_result qubo_tie raw_example properties_example
       world_example = Ok (r, w') /\
     BitVector_str (QAOAResult.best_bitvector r) = "01"%string /\
     QAOAResult.best_value r = 1%Q) /\
  (exists r w',
     QAOAResult.from_result qubo_strict raw_example properties_example
       world_example = Ok (r, w') /\
     BitVector_str (QAOAResult.best_bitvector r) = "10"%string /\
     QAOAResult.best_value r = 0.5%Q).
Proof.
  split.
  - destruct (proj1 from_result_worked_examples qubo_tie world_example)
      as (f & w1 & _ & _ & H); [repeat split|].
    eexists _, _. split; [vm_compute; reflexivity|].
    eapply (H properties_example). vm_compute. reflexivity.
  - destruct (proj2 from_result_worked_examples qubo_strict world_example)
      as (f & w1 & _ & _ & H); [repeat split|].
    eexists _, _. split; [vm_compute; reflexivity|].
    eapply (H properties_example). vm_compute. reflexivity.
Defined.

(** ** The constructor: C9 and C3 *)

Lemma scalars_numbers xs :
  forallb is_scalar xs = true -> exists qs, mapM scalar_of xs = Some qs.
Proof.
  induction xs as [|[x|ys] xs IH]; simpl; intros H.
  - exists []. reflexivity.
  - destruct (IH H) as [qs Hqs]. exists (x :: qs).
    cbn. rewrite Hqs. reflexivity.
  - discriminate.
Qed.

Lemma numbers_scalars xs qs :
  mapM scalar_of xs = Some qs -> forallb is_scalar xs = true.
Proof.
  revert qs. induction xs as [|[x|ys] xs IH]; intros qs H.
  - reflexivity.
  - cbn in H. destruct (mapM scalar_of xs) as [qs'|] eqn:E; [|discriminate].
    simpl. eapply IH. reflexivity.
  - discriminate.
Qed.

Lemma numbers_one_dimensional h v :
  one_dimensional h v = true <-> is_Some (numbers h v).
Proof.
  unfold one_dimensional, numbers. destruct (items h v) as [xs|].
  - split.
    + intros H. destruct (scalars_numbers xs H) as [qs ->]. eexists; reflexivity.
    + intros [qs H]. eapply numbers_scalars, H.
  - split; [discriminate|]. intros [qs H]. discriminate.
Qed.

Lemma items_prefix h h' v :
  h `prefix_of` h' -> valid_ref h v -> items h' v = items h v.
Proof.
  intros [k ->] Hv. destruct v as [l| |]; simpl in *; try reflexivity.
  rewrite lookup_app_l by exact Hv. reflexivity.
Qed.

(** What a successful check returns: a reference to an array holding the
    items of its argument; the store only grows. *)
Lemma check_arraylike_spec v name w l w' :
  check_arraylike v name w = Ok (l, w') ->
  exists xs, items (heap w) v = Some xs /\ forallb is_scalar xs = true /\
             heap w' !! l = Some (NdArray (ASeq xs)) /\
             heap w `prefix_of` heap w' /\ evals w' = evals w.
Proof.
  intros H. apply check_arraylike_inv in H
    as (xs & Hi & Hs & [[-> ->]|(-> & Hl & ->)]); exists xs; simpl.
  - repeat (split; [assumption|]). split; [|split; [|reflexivity]].
    + rewrite lookup_app_r by lia. rewrite Nat.sub_diag. reflexivity.
    + apply prefix_app_r. reflexivity.
  - repeat (split; [assumption|]). split; reflexivity.
Qed.

Lemma read_array_prefix h h' l xs :
  h `prefix_of` h' -> h !! l = Some (NdArray (ASeq xs)) ->
  read_array h' l = mapM scalar_of xs.
Proof.
  intros Hp Hl. unfold read_array.
  rewrite (prefix_lookup_Some _ _ _ _ Hl Hp). reflexivity.
Qed.

(** One check of the constructor, on a valid argument: it succeeds exactly
    when the argument is one-dimensional. *)
Lemma check_arraylike_decides v name w :
  (one_dimensional (heap w) v = true /\
   exists l w', check_arraylike v name w = Ok (l, w')) \/
  (one_dimensional (heap w) v = false /\
   exists e, check_arraylike v name w = Raise e).
Proof.
  destruct (one_dimensional (heap w) v) eqn:H.
  - left. split; [reflexivity|].
    destruct (check_arraylike_Ok v name w H) as (l & w' & Hc & _).
    exists l, w'. exact Hc.
  - right. split; [reflexivity|]. apply check_arraylike_fails, H.
Qed.

Lemma one_dimensional_prefix h h' v :
  h `prefix_of` h' -> valid_ref h v ->
  one_dimensional h' v = one_dimensional h v.
Proof.
  intros Hp Hv. unfold one_dimensional. rewrite (items_prefix _ _ _ Hp Hv).
  reflexivity.
Qed.

(** One step of [init_checks]: the check of [v] in the current world [w1],
    whose store extends the initial one by [Hpre]. *)
Ltac init_step v name w1 Hpre Hval w2 H :=
  let O := fresh "O" in
  destruct (check_arraylike_decides v name w1) as [[O (? & w2 & H)]|[O [? H]]];
  rewrite ?(one_dimensional_prefix _ _ _ Hpre Hval) in O; rewrite O;
  [ rewrite (bind_step _ _ _ _ _ H); cbn [andb];
    apply check_arraylike_spec in H as (_ & _ & _ & _ & H & _)
  | right; split; [reflexivity|]; eexists; unfold bind; rewrite H; reflexivity ].

(** The outcome of the five checks of the constructor. *)
Lemma init_checks bb bv f a b c d e tb eb opt w :
  Forall (valid_ref (heap w)) [a; b; c; d; e] ->
  (forallb (one_dimensional (heap w)) [a; b; c; d; e] = true /\
   exists r w', QAOAResult.__init__ bb bv f a b c d e tb eb opt w = Ok (r, w')) \/
  (forallb (one_dimensional (heap w)) [a; b; c; d; e] = false /\
   exists x, QAOAResult.__init__ bb bv f a b c d e tb eb opt w = Raise x).
Proof.
  intros Hv.
  apply Forall_cons in Hv as [Ha Hv]. apply Forall_cons in Hv as [Hb Hv].
  apply Forall_cons in Hv as [Hc Hv]. apply Forall_cons in Hv as [Hd Hv].
  apply Forall_cons in Hv as [He _].
  unfold QAOAResult.__init__. cbn [forallb].
  assert (P0 : heap w `prefix_of` heap w) by reflexivity.
  init_step a "init_beta"%string w P0 Ha w1 P1.
  init_step b "init_gamma"%string w1 P1 Hb w2 P2.
  assert (P02 : heap w `prefix_of` heap w2) by (etrans; eassumption).
  init_step c "final_beta"%string w2 P02 Hc w3 P3.
  assert (P03 : heap w `prefix_of` heap w3) by (etrans; eassumption).
  init_step d "final_gamma"%string w3 P03 Hd w4 P4.
  assert (P04 : heap w `prefix_of` heap w4) by (etrans; eassumption).
  init_step e "expval_history"%string w4 P04 He w5 P5.
  left. split; [reflexivity|]. eexists _, _. reflexivity.
Qed.

(** The arrays stored by a successful constructor hold the numbers of its
    arguments. *)
Lemma init_arrays bb bv f a b c d e tb eb opt w r w' :
  Forall (valid_ref (heap w)) [a; b; c; d; e] ->
  QAOAResult.__init__ bb bv f a b c d e tb eb opt w = Ok (r, w') ->
  read_array (heap w') (QAOAResult.init_beta r) = numbers (heap w) a /\
  read_array (heap w') (QAOAResult.init_gamma r) = numbers (heap w) b /\
  read_array (heap w') (QAOAResult.final_beta r) = numbers (heap w) c /\
  read_array (heap w') (QAOAResult.final_gamma r) = numbers (heap w) d /\
  read_array (heap w') (QAOAResult.expval_history r) = numbers (heap w) e.
Proof.
  intros Hv H.
  apply Forall_cons in Hv as [Ha Hv]. apply Forall_cons in Hv as [Hb Hv].
  apply Forall_cons in Hv as [Hc Hv]. apply Forall_cons in Hv as [Hd Hv].
  apply Forall_cons in Hv as [He _].
  apply init_inv in H
    as (l1 & w1 & l2 & w2 & l3 & w3 & l4 & w4 & l5 & H1 & H2 & H3 & H4 & H5 & ->).
  apply check_arraylike_spec in H1 as (x1 & I1 & _ & L1 & P1 & _).
  apply check_arraylike_spec in H2 as (x2 & I2 & _ & L2 & P2 & _).
  apply check_arraylike_spec in H3 as (x3 & I3 & _ & L3 & P3 & _).
  apply check_arraylike_spec in H4 as (x4 & I4 & _ & L4 & P4 & _).
  apply check_arraylike_spec in H5 as (x5 & I5 & _ & L5 & P5 & _).
  assert (P02 : heap w `prefix_of` heap w2) by (etrans; eassumption).
  assert (P03 : heap w `prefix_of` heap w3) by (etrans; eassumption).
  assert (P04 : heap w `prefix_of` heap w4) by (etrans; eassumption).
  assert (P4' : heap w4 `prefix_of` heap w') by assumption.
  assert (P3' : heap w3 `prefix_of` heap w') by (etrans; eassumption).
  assert (P2' : heap w2 `prefix_of` heap w') by (etrans; eassumption).
  assert (P1' : heap w1 `prefix_of` heap w') by (etrans; eassumption).
  rewrite (items_prefix _ _ _ P1 Hb) in I2.
  rewrite (items_prefix _ _ _ P02 Hc) in I3.
  rewrite (items_prefix _ _ _ P03 Hd) in I4.
  rewrite (items_prefix _ _ _ P04 He) in I5.
  unfold numbers. rewrite I1, I2, I3, I4, I5. simpl.
  rewrite (read_array_prefix _ _ _ _ P1' L1), (read_array_prefix _ _ _ _ P2' L2),
    (read_array_prefix _ _ _ _ P3' L3), (read_array_prefix _ _ _ _ P4' L4).
  repeat split. unfold read_array. rewrite L5. reflexivity.
Qed.

(** C9.  Each of the five trace arguments of the constructor is checked to
    be one-dimensional: construction succeeds exactly when all five are, and
    it fails, returning no [Result], as soon as one of them is not. *)
Theorem init_validates_one_dimensional bb bv f a b c d e tb eb opt w :
  Forall (valid_ref (heap w)) [a; b; c; d; e] ->
  ((exists r w',
      QAOAResult.__init__ bb bv f a b c d e tb eb opt w = Ok (r, w')) <->
   Forall (fun v => one_dimensional (heap w) v = true) [a; b; c; d; e]) /\
  (forall v, v ∈ [a; b; c; d; e] -> one_dimensional (heap w) v = false ->
     exists x, QAOAResult.__init__ bb bv f a b c d e tb eb opt w = Raise x).
Proof.
  intros Hv.
  destruct (init_checks bb bv f a b c d e tb eb opt w Hv)
    as [[Hall Hok]|[Hsome Hfail]].
  - assert (HF : Forall (fun v => one_dimensional (heap w) v = true)
                   [a; b; c; d; e]).
    { apply Forall_forall. intros v Hin. apply list_elem_of_In in Hin.
      exact (proj1 (forallb_forall _ _) Hall v Hin). }
    split; [split; [intros _; exact HF|intros _; exact Hok]|].
    intros v Hin Hfalse. rewrite Forall_forall in HF.
    rewrite (HF v Hin) in Hfalse. discriminate.
  - destruct Hfail as [x Hx]. split.
    + split.
      * intros (r & w' & Hok). rewrite Hx in Hok. discriminate.
      * intros HF. exfalso.
        assert (Hall : forallb (one_dimensional (heap w)) [a; b; c; d; e] = true).
        { apply forallb_forall. intros v Hin. apply list_elem_of_In in Hin.
          rewrite Forall_forall in HF. exact (HF v Hin). }
        rewrite Hall in Hsome. discriminate.
    + intros v _ _. exists x. exact Hx.
Qed.

Lemma init_validates_one_dimensional_witness :
  (exists r w',
     QAOAResult.__init__ [false; true] 1%Q (mkFreq [] [] [])
       (VRef 0%nat) (VRef 0%nat) (VRef 1%nat) (VRef 1%nat) (VRef 2%nat)
       (VConfig "training") (VConfig "evaluation") (VConfig "optimizer")
       world_example = Ok (r, w')) /\
  (exists x,
     QAOAResult.__init__ [false; true] 1%Q (mkFreq [] [] [])
       (VRef 0%nat) (VRef 0%nat) (VRef 3%nat) (VRef 1%nat) (VRef 2%nat)
       (VConfig "training") (VConfig "evaluation") (VConfig "optimizer")
       world_example = Raise x).
Proof.
  split.
  - apply init_validates_one_dimensional.
    + repeat apply Forall_cons_2; try apply Forall_nil_2; simpl; lia.
    + repeat constructor.
  - eapply (proj2 (init_validates_one_dimensional _ _ _ _ _ _ _ _ _ _ _ _ _)
              (VRef 3%nat)).
    + do 2 apply list_elem_of_further. apply list_elem_of_here.
    + reflexivity.
    Unshelve.
    repeat apply Forall_cons_2; try apply Forall_nil_2; simpl; lia.
Defined.

(** C3, counterexample.  Constructing a [Result] with a [final_beta] of
    length 3 and a [final_gamma] of length 4 succeeds, both through the
    constructor and through [from_result]: no [ShapeError] is raised. *)
Lemma init_unequal_lengths_accepted :
  (exists r w',
     QAOAResult.__init__ [false; true] 1%Q (mkFreq [] [] [])
       (VRef 0%nat) (VRef 0%nat) (VRef 0%nat) (VRef 1%nat) (VRef 2%nat)
       (VConfig "training") (VConfig "evaluation") (VConfig "optimizer")
       world_example = Ok (r, w') /\
     read_array (heap w') (QAOAResult.final_beta r)
       = Some [0.1%Q; 0.2%Q; 0.3%Q] /\
     read_array (heap w') (QAOAResult.final_gamma r)
       = Some [0.4%Q; 0.5%Q; 0.6%Q; 0.7%Q]) /\
  (exists r w',
     QAOAResult.from_result qubo_tie raw_example properties_example
       world_example = Ok (r, w') /\
     read_array (heap w') (QAOAResult.final_beta r)
       = Some [0.1%Q; 0.2%Q; 0.3%Q] /\
     read_array (heap w') (QAOAResult.final_gamma r)
       = Some [0.4%Q; 0.5%Q; 0.6%Q; 0.7%Q]).
Proof.
  split; eexists _, _; (split; [vm_compute; reflexivity|]);
    split; vm_compute; reflexivity.
Qed.

(** A series drawn against the indices of itself is always accepted. *)
Lemma ax_plot_own_indices ys :
  ax_plot (seq 0 (length ys)) ys = Ok (seq 0 (length ys), ys).
Proof. unfold ax_plot. rewrite length_seq, Nat.eqb_refl. reflexivity. Qed.

(** The parameter view on the two stored sequences: line 180 plots
    [final_gamma] against the indices of [final_beta]. *)
Lemma plot_parameters_read r h beta gamma :
  read_array h (QAOAResult.final_beta r) = Some beta ->
  read_array h (QAOAResult.final_gamma r) = Some gamma ->
  QAOAResult.plot_parameters r h =
  if Nat.eqb (length beta) (length gamma)
  then Ok ((seq 0 (length beta), beta), (seq 0 (length beta), gamma))
  else Raise (ValueError "x and y must have same first dimension").
Proof.
  intros Hb Hg. unfold QAOAResult.plot_parameters. rewrite Hb, Hg.
  rewrite ax_plot_own_indices. unfold ax_plot. rewrite length_seq.
  destruct (Nat.eqb (length beta) (length gamma)); reflexivity.
Qed.

(** C3, amended.  The constructor makes no check that relates the lengths
    of [final_beta] and [final_gamma]: whenever the five trace arguments are
    one-dimensional it succeeds and stores the two sequences as given,
    whatever their lengths.  A difference of the lengths shows at view time
    only: the parameter view draws both series when the lengths are equal
    and fails with the [ValueError] of [ax.plot] (line 180) when they are
    not. *)
Theorem init_no_length_check bb bv f a b c d e tb eb opt w beta gamma :
  Forall (valid_ref (heap w)) [a; b; c; d; e] ->
  Forall (fun v => one_dimensional (heap w) v = true) [a; b; c; d; e] ->
  numbers (heap w) c = Some beta ->
  numbers (heap w) d = Some gamma ->
  exists r w',
    QAOAResult.__init__ bb bv f a b c d e tb eb opt w = Ok (r, w') /\
    read_array (heap w') (QAOAResult.final_beta r) = Some beta /\
    read_array (heap w') (QAOAResult.final_gamma r) = Some gamma /\
    QAOAResult.plot_parameters r (heap w') =
      if Nat.eqb (length beta) (length gamma)
      then Ok ((seq 0 (length beta), beta), (seq 0 (length beta), gamma))
      else Raise (ValueError "x and y must have same first dimension").
Proof.
  intros Hv H1d Hbeta Hgamma.
  destruct (init_checks bb bv f a b c d e tb eb opt w Hv)
    as [[_ (r & w' & Hok)]|[Hsome _]].
  2:{ exfalso.
      assert (Hall : forallb (one_dimensional (heap w)) [a; b; c; d; e] = true).
      { apply forallb_forall. intros v Hin. apply list_elem_of_In in Hin.
        rewrite Forall_forall in H1d. exact (H1d v Hin). }
      rewrite Hall in Hsome. discriminate. }
  exists r, w'. split; [exact Hok|].
  destruct (init_arrays _ _ _ _ _ _ _ _ _ _ _ _ _ _ Hv Hok)
    as (_ & _ & Hb & Hg & _).
  rewrite Hbeta in Hb. rewrite Hgamma in Hg.
  split; [exact Hb|]. split; [exact Hg|].
  apply plot_parameters_read; assumption.
Qed.

Lemma init_no_length_check_witness :
  (exists r w',
     QAOAResult.__init__ [false; true] 1%Q (mkFreq [] [] [])
       (VRef 0%nat) (VRef 0%nat) (VRef 0%nat) (VRef 1%nat) (VRef 2%nat)
       (VConfig "training") (VConfig "evaluation") (VConfig "optimizer")
       world_example = Ok (r, w') /\
     read_array (heap w') (QAOAResult.final_beta r)
       = Some [0.1%Q; 0.2%Q; 0.3%Q] /\
     read_array (heap w') (QAOAResult.final_gamma r)
       = Some [0.4%Q; 0.5%Q; 0.6%Q; 0.7%Q] /\
     QAOAResult.plot_parameters r (heap w')
       = Raise (ValueError "x and y must have same first dimension")) /\
  (exists r w',
     QAOAResult.__init__ [false; true] 1%Q (mkFreq [] [] [])
       (VRef 0%nat) (VRef 0%nat) (VRef 2%nat) (VRef 2%nat) (VRef 2%nat)
       (VConfig "training") (VConfig "evaluation") (VConfig "optimizer")
       world_example = Ok (r, w') /\
     read_array (heap w') (QAOAResult.final_beta r) = Some [3%Q; 2%Q] /\
     read_array (heap w') (QAOAResult.final_gamma r) = Some [3%Q; 2%Q] /\
     QAOAResult.plot_parameters r (heap w')
       = Ok ((seq 0 2, [3%Q; 2%Q]), (seq 0 2, [3%Q; 2%Q]))).
Proof.
  split.
  - apply (init_no_length_check _ _ _ _ _ _ _ _ _ _ _ world_example
             [0.1%Q; 0.2%Q; 0.3%Q] [0.4%Q; 0.5%Q; 0.6%Q; 0.7%Q]).
    + repeat apply Forall_cons_2; try apply Forall_nil_2; simpl; lia.
    + repeat constructor.
    + reflexivity.
    + reflexivity.
  - apply (init_no_length_check _ _ _ _ _ _ _ _ _ _ _ world_example
             [3%Q; 2%Q] [3%Q; 2%Q]).
    + repeat apply Forall_cons_2; try apply Forall_nil_2; simpl; lia.
    + repeat constructor.
    + reflexivity.
    + reflexivity.
Defined.

(** ** C8: the trace arrays are copies *)

Lemma lookup_app_at {A} (h t : list A) k : (h ++ t) !! (length h + k)%nat = t !! k.
Proof.
  rewrite lookup_app_r by lia. f_equal. lia.
Qed.

Lemma read_array_at h t k xs qs (h'' : list pyobj) :
  t !! k = Some (NdArray (ASeq xs)) ->
  mapM scalar_of xs = Some qs ->
  (forall j : nat, (length h <= j)%nat -> h'' !! j = (h ++ t) !! j) ->
  read_array h'' (length h + k) = Some qs.
Proof.
  intros Ht Hqs Hagree. unfold read_array.
  rewrite Hagree by lia. rewrite lookup_app_at, Ht. exact Hqs.
Qed.


(** One check of the constructor inside [from_result]: the argument is the
    list object at position [i] of the objects [t] allocated by the build. *)
Lemma check_copy h t ev i xs name l w' :
  t !! i = Some (PyList xs) ->
  check_arraylike (VRef (length h + i)) name (World (h ++ t) ev) = Ok (l, w') ->
  forallb is_scalar xs = true /\
  l = (length h + length t)%nat /\
  w' = World (h ++ (t ++ [NdArray (ASeq xs)])) ev.
Proof.
  intros Ht H.
  rewrite (check_arraylike_list _ _ _ xs) in H
    by (simpl; rewrite lookup_app_at; exact Ht).
  destruct (forallb is_scalar xs); [|discriminate].
  injection H as <- <-. simpl. rewrite length_app, <- app_assoc.
  repeat split.
Qed.



Lemma properties_example_valid :
  properties_valid properties_example (heap world_example).
Proof.
  intros k v H. unfold properties_example in H.
  repeat (apply lookup_insert_Some in H as [[_ <-]|[_ H]]; [simpl; lia|]).
  rewrite lookup_empty in H. discriminate.
Qed.


(** ** The shot histogram: C4, C5, C10 *)

Lemma bit_of_char_of_bit x : bit_of_char (char_of_bit x) = Ok x.
Proof. destruct x; reflexivity. Qed.

Lemma int2_digits_str acc b :
  int2_digits acc (BitVector_str b) = Ok (decode_from acc b).
Proof.
  revert acc. induction b as [|x b IH]; intros acc; simpl; [reflexivity|].
  rewrite bit_of_char_of_bit. apply IH.
Qed.

(** [int(str(bitvector), 2)]: the decoded integer, and [ValueError] on the
    bitvector of length 0. *)
Lemma int_base2_str b :
  int_base2 (BitVector_str b) =
  match b with
  | [] => Raise (ValueError "invalid literal for int() with base 2")
  | _ => Ok (decode b)
  end.
Proof.
  destruct b as [|x b]; [reflexivity|].
  unfold int_base2, decode. rewrite <- int2_digits_str. reflexivity.
Qed.

Lemma decode_from_app acc b x :
  decode_from acc (b ++ [x]) = 2 * decode_from acc b + (if x then 1 else 0).
Proof.
  revert acc. induction b as [|y b IH]; intros acc; simpl; [reflexivity|].
  apply IH.
Qed.

Lemma decode_from_bound acc b :
  acc * 2 ^ Z.of_nat (length b) <= decode_from acc b
    < (acc + 1) * 2 ^ Z.of_nat (length b).
Proof.
  revert acc. induction b as [|x b IH]; intros acc.
  - simpl. lia.
  - cbn [decode_from length]. rewrite Nat2Z.inj_succ, Z.pow_succ_r by lia.
    specialize (IH (2 * acc + (if x then 1 else 0))).
    assert (HP : 0 < 2 ^ Z.of_nat (length b)) by (apply Z.pow_pos_nonneg; lia).
    revert IH HP. generalize (2 ^ Z.of_nat (length b)).
    intros P IH HP. destruct x; nia.
Qed.

Lemma decode_bound b : 0 <= decode b < 2 ^ Z.of_nat (length b).
Proof.
  pose proof (decode_from_bound 0 b) as H. unfold decode. lia.
Qed.

Lemma bits_of_length n i : length (bits_of n i) = n.
Proof.
  revert i. induction n as [|n IH]; intros i; simpl; [reflexivity|].
  rewrite length_app, IH. simpl. lia.
Qed.

Lemma decode_bits_of n i :
  (i < 2 ^ n)%nat -> decode (bits_of n i) = Z.of_nat i.
Proof.
  revert i. induction n as [|n IH]; intros i Hi.
  - simpl in Hi. assert (i = 0%nat) as -> by lia. reflexivity.
  - change (bits_of (S n) i) with (bits_of n (i / 2) ++ [Nat.odd i]).
    unfold decode. rewrite decode_from_app.
    fold (decode (bits_of n (i / 2))). rewrite IH.
    + pose proof (Nat.div_mod_eq i 2) as Hdm.
      assert (Hodd : (if Nat.odd i then 1 else 0) = Z.of_nat (i mod 2)).
      { rewrite <- Nat.bit0_mod. simpl. destruct (Nat.odd i); reflexivity. }
      rewrite Hodd. revert Hdm. generalize (i / 2)%nat (i mod 2)%nat.
      intros q m Hdm. lia.
    + rewrite Nat.pow_succ_r' in Hi.
      apply Nat.Div0.div_lt_upper_bound. lia.
Qed.

Lemma odd_div2 i : i = (2 * (i / 2) + Nat.b2n (Nat.odd i))%nat.
Proof.
  pose proof (Nat.div_mod_eq i 2) as H. rewrite <- Nat.bit0_mod in H.
  exact H.
Qed.

(** Two labels are made of each label of the previous round. *)
Lemma pairs_lookup {A B} (f g : A -> B) (l : list A) j x :
  l !! j = Some x ->
  flat_map (fun x => [f x; g x]) l !! (2 * j)%nat = Some (f x) /\
  flat_map (fun x => [f x; g x]) l !! (2 * j + 1)%nat = Some (g x).
Proof.
  revert j. induction l as [|y l IH]; intros j Hj; [discriminate|].
  destruct j as [|j]; simpl in Hj.
  - injection Hj as ->. split; reflexivity.
  - destruct (IH j Hj) as [H0 H1].
    replace (2 * S j)%nat with (S (S (2 * j))) by lia.
    replace (S (S (2 * j)) + 1)%nat with (S (S (2 * j + 1))) by lia.
    split; assumption.
Qed.

Lemma pairs_length {A B} (f g : A -> B) (l : list A) :
  length (flat_map (fun x => [f x; g x]) l) = (2 * length l)%nat.
Proof.
  induction l as [|y l IH]; simpl; [reflexivity|]. rewrite IH. lia.
Qed.

Lemma product01_length n :
  length (product ["0"%char; "1"%char] n) = (2 ^ n)%nat.
Proof.
  induction n as [|n IH]; [reflexivity|].
  cbn [product map]. rewrite pairs_length, IH, Nat.pow_succ_r'. reflexivity.
Qed.

(** The labels are in binary-counting order: the label at position [i] is
    the [n]-bit representation of [i]. *)
Lemma product01_lookup n i :
  (i < 2 ^ n)%nat ->
  product ["0"%char; "1"%char] n !! i = Some (map char_of_bit (bits_of n i)).
Proof.
  revert i. induction n as [|n IH]; intros i Hi.
  - simpl in Hi. assert (i = 0%nat) as -> by lia. reflexivity.
  - change (bits_of (S n) i) with (bits_of n (i / 2) ++ [Nat.odd i]).
    cbn [product map].
    assert (Hj : (i / 2 < 2 ^ n)%nat).
    { rewrite Nat.pow_succ_r' in Hi.
      apply Nat.Div0.div_lt_upper_bound. lia. }
    destruct (pairs_lookup (fun x => x ++ ["0"%char]) (fun x => x ++ ["1"%char])
                _ _ _ (IH _ Hj)) as [H0 H1].
    rewrite map_app. rewrite (odd_div2 i) at 1.
    destruct (Nat.odd i); simpl Nat.b2n; simpl map.
    + exact H1.
    + rewrite Nat.add_0_r. exact H0.
Qed.

Lemma str_of_chars b :
  string_of_list_ascii (map char_of_bit b) = BitVector_str b.
Proof.
  induction b as [|x b IH]; simpl; [reflexivity|]. rewrite IH. reflexivity.
Qed.

Lemma Zsum_insert (h : list Z) k x y :
  h !! k = Some x -> Zsum (<[k := y]> h) = Zsum h - x + y.
Proof.
  revert k. induction h as [|z h IH]; intros k Hk; [discriminate|].
  destruct k as [|k]; simpl in *.
  - injection Hk as ->. lia.
  - rewrite (IH k Hk). lia.
Qed.

Lemma Zsum_zeros {A} (l : list A) : Zsum (map (fun _ => 0) l) = 0.
Proof. induction l as [|x l IH]; simpl; [reflexivity|exact IH]. Qed.

Lemma list_iadd_Ok (height : list Z) i n :
  0 <= i < Z.of_nat (length height) ->
  exists x, height !! Z.to_nat i = Some x /\
            list_iadd height i n = Ok (<[Z.to_nat i := x + n]> height).
Proof.
  intros Hi. unfold list_iadd.
  destruct (i <? 0) eqn:Hneg; [lia|].
  destruct (0 <=? i) eqn:H0; [|lia]. destruct (i <? Z.of_nat (length height)) eqn:H1; [|lia].
  simpl. destruct (lookup_lt_is_Some_2 height (Z.to_nat i)) as [x Hx]; [lia|].
  exists x. rewrite Hx. split; reflexivity.
Qed.


Lemma bucket_cons e es i :
  bucket (e :: es) i =
  (if decide (decode (candidate e) = Z.of_nat i) then count e else 0)
  + bucket es i.
Proof.
  unfold bucket. rewrite filter_cons.
  destruct (decide (decode (candidate e) = Z.of_nat i)); reflexivity.
Qed.

(** The accumulation loop, when every candidate is non-empty and decodes to
    an index inside the list of heights. *)
Lemma accumulate_Ok es :
  forall height,
    (forall e, e ∈ es ->
       candidate e <> [] /\ decode (candidate e) < Z.of_nat (length height)) ->
    exists height',
      accumulate height es = Ok height' /\
      length height' = length height /\
      Zsum height' = Zsum height + Zsum (map count es) /\
      forall i, height' !! i = (fun x => x + bucket es i) <$> height !! i.
Proof.
  induction es as [|[[b v] n] es IH]; intros height Hes.
  - exists height. repeat split; [simpl; lia|].
    intros i. unfold bucket. simpl. destruct (height !! i); simpl; f_equal. lia.
  - destruct (Hes (b, v, n)) as [Hne Hlt]; [left|]. unfold candidate in Hne, Hlt.
    simpl in Hne, Hlt. simpl accumulate. rewrite int_base2_str.
    destruct b as [|x b]; [contradiction|]. set (c := x :: b) in *.
    pose proof (decode_bound c) as Hc.
    destruct (list_iadd_Ok height (decode c) n) as (y & Hy & ->); [lia|].
    destruct (IH (<[Z.to_nat (decode c) := y + n]> height)) as (h' & Hacc & Hlen & Hsum & Hl).
    { intros e He. rewrite length_insert. apply Hes. right. exact He. }
    exists h'. split; [exact Hacc|]. rewrite length_insert in Hlen.
    split; [exact Hlen|]. split.
    + rewrite Hsum, (Zsum_insert _ _ _ _ Hy).
      change (Zsum (map count ((c, v, n) :: es)))
        with (n + Zsum (map count es)). lia.
    + intros i. rewrite Hl, bucket_cons.
      change (candidate (c, v, n)) with c. change (count (c, v, n)) with n.
      destruct (decide (decode c = Z.of_nat i)) as [Heq|Hneq].
      * assert (Hk : Z.to_nat (decode c) = i) by lia.
        rewrite Hk in Hy |- *.
        rewrite list_lookup_insert_eq by (eapply lookup_lt_Some, Hy).
        rewrite Hy. simpl. f_equal. lia.
      * rewrite list_lookup_insert_ne by lia.
        destruct (height !! i); simpl; [f_equal; lia|reflexivity].
Qed.

Lemma bucket_none es i :
  (forall e, e ∈ es -> decode (candidate e) <> Z.of_nat i) -> bucket es i = 0.
Proof.
  induction es as [|e es IH]; intros H; [reflexivity|].
  rewrite bucket_cons, IH by (intros e' He'; apply H; right; exact He').
  destruct (decide (decode (candidate e) = Z.of_nat i)) as [Heq|_]; [|reflexivity].
  exfalso. apply (H e); [left|exact Heq].
Qed.

(** The histogram of a [Result] with [n]-bit candidates, [n >= 1] (or with
    an empty table): labels and heights. *)
Lemma plot_shots_histogram_Ok r n :
  n_bit r n ->
  (0 < n)%nat \/ Freq_iter (QAOAResult.freq r) = [] ->
  exists hs,
    QAOAResult.plot_shots_histogram r
      = Ok (map string_of_list_ascii (product ["0"%char; "1"%char] n), hs) /\
    length hs = (2 ^ n)%nat /\
    Zsum hs = Zsum (map count (Freq_iter (QAOAResult.freq r))) /\
    forall i, (i < 2 ^ n)%nat ->
      hs !! i = Some (bucket (Freq_iter (QAOAResult.freq r)) i).
Proof.
  intros [Hbest Hall] Hn. unfold QAOAResult.plot_shots_histogram. rewrite Hbest.
  set (xs := map string_of_list_ascii (product ["0"%char; "1"%char] n)).
  assert (Hxs : length xs = (2 ^ n)%nat).
  { unfold xs. rewrite length_map. apply product01_length. }
  destruct (accumulate_Ok (Freq_iter (QAOAResult.freq r)) (map (fun _ => 0) xs))
    as (hs & Hacc & Hlen & Hsum & Hl).
  { intros e He. destruct Hn as [Hn|Hnil]; [|rewrite Hnil in He; inversion He].
    pose proof (proj1 (Forall_forall _ _) Hall e He) as Hlen.
    cbv beta in Hlen.
    pose proof (decode_bound (candidate e)) as Hd.
    split.
    - intros Hnil. rewrite Hnil in Hlen. simpl in Hlen. lia.
    - rewrite length_map, Hxs, Hlen in *. rewrite Nat2Z.inj_pow. simpl. lia. }
  rewrite Hacc. exists hs. split; [reflexivity|].
  rewrite length_map in Hlen. split; [congruence|].
  rewrite Zsum_zeros in Hsum. split; [lia|].
  intros i Hi. rewrite Hl.
  change (map (fun _ => 0) xs) with ((fun _ => 0) <$> xs).
  rewrite list_lookup_fmap.
  destruct (lookup_lt_is_Some_2 xs i) as [x ->]; [lia|]. reflexivity.
Qed.

(** C4, counterexample.  The [Result] built from the map {"": 1} has 0-bit
    candidates only, and its histogram view raises [ValueError] (from
    [int("", 2)]) instead of producing 2^0 = 1 bucket. *)
Lemma histogram_fails_on_zero_bits :
  exists r w',
    QAOAResult.from_result qubo_tie raw_zero_bits properties_example
      world_example = Ok (r, w') /\
    length (QAOAResult.best_bitvector r) = 0%nat /\
    Forall (fun e => length (candidate e) = 0%nat)
      (Freq_iter (QAOAResult.freq r)) /\
    QAOAResult.plot_shots_histogram r
      = Raise (ValueError "invalid literal for int() with base 2").
Proof.
  eexists _, _. split; [vm_compute; reflexivity|].
  split; [reflexivity|]. split; [repeat constructor|reflexivity].
Qed.

(** C4, amended.  For every [Result] whose candidates are [n]-bit with
    [n >= 1] (or whose table is empty) the histogram view produces exactly
    [2^n] labels and [2^n] heights, and the heights sum to the sum of the
    occurrence counts of the table. *)
Theorem shots_histogram_totals r n :
  n_bit r n ->
  (0 < n)%nat \/ Freq_iter (QAOAResult.freq r) = [] ->
  exists xs hs,
    QAOAResult.plot_shots_histogram r = Ok (xs, hs) /\
    length xs = (2 ^ n)%nat /\
    length hs = (2 ^ n)%nat /\
    Zsum hs = Zsum (map count (Freq_iter (QAOAResult.freq r))).
Proof.
  intros Hbits Hn.
  destruct (plot_shots_histogram_Ok r n Hbits Hn) as (hs & Hplot & Hlen & Hsum & _).
  eexists _, hs. split; [exact Hplot|].
  rewrite length_map, product01_length. repeat split; assumption.
Qed.

Lemma shots_histogram_totals_witness :
  (exists w',
     QAOAResult.from_result qubo_tie raw_example properties_example
       world_example = Ok (result_example, w')) /\
  exists xs hs,
    QAOAResult.plot_shots_histogram result_example = Ok (xs, hs) /\
    length xs = 4%nat /\ length hs = 4%nat /\ Zsum hs = 12.
Proof.
  split; [eexists; vm_compute; reflexivity|].
  apply (shots_histogram_totals result_example 2).
  - split; [reflexivity|]. repeat constructor.
  - left. lia.
Defined.

(** C5, counterexample.  On the [Result] built from the map {"": 7} the
    histogram view raises [ValueError]: the single bucket of the 0-bit space
    does not receive the count 7. *)
Lemma histogram_bucket_missing_on_zero_bits :
  exists r w',
    QAOAResult.from_result qubo_strict [(""%string, 7)] properties_example
      world_example = Ok (r, w') /\
    n_bit r 0 /\
    bucket (Freq_iter (QAOAResult.freq r)) 0 = 7 /\
    QAOAResult.plot_shots_histogram r
      = Raise (ValueError "invalid literal for int() with base 2").
Proof.
  eexists _, _. split; [vm_compute; reflexivity|].
  split; [split; [reflexivity|repeat constructor]|].
  split; reflexivity.
Qed.

(** C5, amended.  For every [Result] whose candidates are [n]-bit with
    [n >= 1] (or whose table is empty), the histogram view lists the [2^n]
    bitstrings in binary-counting order (the label at position [i] is the
    [n]-bit representation of [i], most significant bit first) and the
    height at position [i] is the summed occurrence count of the entries
    whose candidate decodes to [i]; it is zero when there is none. *)
Theorem shots_histogram_buckets r n :
  n_bit r n ->
  (0 < n)%nat \/ Freq_iter (QAOAResult.freq r) = [] ->
  exists xs hs,
    QAOAResult.plot_shots_histogram r = Ok (xs, hs) /\
    length xs = (2 ^ n)%nat /\
    forall i, (i < 2 ^ n)%nat ->
      xs !! i = Some (BitVector_str (bits_of n i)) /\
      length (bits_of n i) = n /\
      decode (bits_of n i) = Z.of_nat i /\
      hs !! i = Some (bucket (Freq_iter (QAOAResult.freq r)) i) /\
      ((forall e, e ∈ Freq_iter (QAOAResult.freq r) ->
          decode (candidate e) <> Z.of_nat i) ->
       hs !! i = Some 0).
Proof.
  intros Hbits Hn.
  destruct (plot_shots_histogram_Ok r n Hbits Hn) as (hs & Hplot & _ & _ & Hl).
  eexists _, hs. split; [exact Hplot|].
  split; [rewrite length_map; apply product01_length|].
  intros i Hi. split; [|split; [|split; [|split]]].
  - change (map string_of_list_ascii (product ["0"%char; "1"%char] n))
      with (string_of_list_ascii <$> product ["0"%char; "1"%char] n).
    rewrite list_lookup_fmap, (product01_lookup n i Hi). simpl.
    rewrite str_of_chars. reflexivity.
  - apply bits_of_length.
  - apply decode_bits_of, Hi.
  - apply Hl, Hi.
  - intros Hnone. rewrite (Hl i Hi), (bucket_none _ _ Hnone). reflexivity.
Qed.

Lemma shots_histogram_buckets_witness :
  (exists w',
     QAOAResult.from_result qubo_tie raw_sparse properties_example
       world_example = Ok (result_sparse, w')) /\
  exists xs hs,
    QAOAResult.plot_shots_histogram result_sparse = Ok (xs, hs) /\
    xs !! 2%nat = Some "10"%string /\ hs !! 2%nat = Some 0 /\
    xs !! 3%nat = Some "11"%string /\ hs !! 3%nat = Some 2.
Proof.
  split; [eexists; vm_compute; reflexivity|].
  destruct (shots_histogram_buckets result_sparse 2) as (xs & hs & Hplot & _ & H).
  - split; [reflexivity|]. repeat constructor.
  - left. lia.
  - exists xs, hs. split; [exact Hplot|].
    destruct (H 2%nat ltac:(simpl; lia)) as (Hx2 & _ & _ & Hh2 & _).
    destruct (H 3%nat ltac:(simpl; lia)) as (Hx3 & _ & _ & Hh3 & _).
    repeat split; assumption.
Defined.

(** The decoded index of an [n]-bit candidate is below [2^n]. *)
Lemma int_base2_bound b i :
  int_base2 (BitVector_str b) = Ok i -> 0 <= i < 2 ^ Z.of_nat (length b).
Proof.
  rewrite int_base2_str. destruct b as [|x b]; [discriminate|].
  intros H. injection H as <-. apply decode_bound.
Qed.

Lemma accumulate_no_IndexError es height n msg :
  length height = (2 ^ n)%nat ->
  Forall (fun e => length (candidate e) = n) es ->
  accumulate height es <> Raise (IndexError msg).
Proof.
  intros Hlen Hall.
  destruct es as [|[[b v] c] es]; [discriminate|].
  destruct b as [|x b]; [discriminate|].
  destruct (accumulate_Ok (((x :: b), v, c) :: es) height) as (h' & Hacc & _);
    [|intros H; pose proof (eq_trans (eq_sym Hacc) H) as Hx; discriminate Hx].
  intros e He. pose proof (proj1 (Forall_forall _ _) Hall e He) as He'.
  pose proof (proj1 (Forall_forall _ _) Hall _ (list_elem_of_here _ _)) as Hn.
  cbv beta in He', Hn. change (candidate (x :: b, v, c)) with (x :: b) in Hn.
  pose proof (decode_bound (candidate e)) as Hd.
  split.
  - intros Hnil. rewrite Hnil in He'. simpl in *. lia.
  - rewrite Hlen, Nat2Z.inj_pow, <- He'. simpl. lia.
Qed.

(** C10.  When every candidate of the table has the bit-length [n] of the
    stored best bitvector, each index decoded by [int(str(bitvector), 2)]
    lies in [0, 2^n), and the accumulation never raises [IndexError].
    Without that precondition it can: [result_mixed_lengths] has a 2-bit
    candidate in a 1-bit histogram. *)
Theorem shots_histogram_index_in_bounds :
  (forall r,
     Forall (fun e => length (candidate e)
                      = length (QAOAResult.best_bitvector r))
       (Freq_iter (QAOAResult.freq r)) ->
     (forall e i, e ∈ Freq_iter (QAOAResult.freq r) ->
        int_base2 (BitVector_str (candidate e)) = Ok i ->
        0 <= i < 2 ^ Z.of_nat (length (QAOAResult.best_bitvector r))) /\
     (forall msg,
        QAOAResult.plot_shots_histogram r <> Raise (IndexError msg))) /\
  (~ Forall (fun e => length (candidate e)
                      = length (QAOAResult.best_bitvector result_mixed_lengths))
       (Freq_iter (QAOAResult.freq result_mixed_lengths)) /\
   QAOAResult.plot_shots_histogram result_mixed_lengths
     = Raise (IndexError "list index out of range")).
Proof.
  split.
  - intros r Hall. split.
    + intros e i He Hi. apply int_base2_bound in Hi.
      rewrite (proj1 (Forall_forall _ _) Hall e He) in Hi. exact Hi.
    + intros msg H. unfold QAOAResult.plot_shots_histogram in H.
      destruct (accumulate _ _) as [h|x] eqn:Hacc; [discriminate|].
      injection H as ->. revert Hacc.
      apply (accumulate_no_IndexError _ _
               (length (QAOAResult.best_bitvector r))); [|exact Hall].
      rewrite !length_map. apply product01_length.
  - split; [|reflexivity].
    intros H. apply Forall_cons in H as [_ H]. apply Forall_cons in H as [H _].
    discriminate H.
Qed.

Lemma shots_histogram_index_in_bounds_witness :
  (forall i,
     int_base2 (BitVector_str [true; false]) = Ok i -> 0 <= i < 2 ^ 2) /\
  QAOAResult.plot_shots_histogram result_example
    <> Raise (IndexError "list index out of range").
Proof.
  assert (H : Forall (fun e => length (candidate e)
                        = length (QAOAResult.best_bitvector result_example))
                (Freq_iter (QAOAResult.freq result_example)))
    by repeat constructor.
  destruct (proj1 shots_histogram_index_in_bounds result_example H) as [Hi Hp].
  split.
  - intros i. apply (Hi ([true; false], 1%Q, 3)).
    do 2 apply list_elem_of_further. apply list_elem_of_here.
  - apply Hp.
Defined.

(** * Further properties of the class *)

(** ** Running from_result *)

(** The keys that [from_result] reads from [properties], in the order of
    lines 114-131. *)
Definition property_keys : list string :=
  ["init_beta"; "init_gamma"; "final_beta"; "final_gamma"; "expval_history";
   "training_backend"; "evaluation_backend"; "optimizer"]%string.

(** The objects allocated by a successful [from_result]: the five lists made
    by [list(...)], then the five arrays made by the constructor. *)
Definition allocated (x1 x2 x3 x4 x5 : list arraylike) : list pyobj :=
  [PyList x1; PyList x2; PyList x3; PyList x4; PyList x5;
   NdArray (ASeq x1); NdArray (ASeq x2); NdArray (ASeq x3);
   NdArray (ASeq x4); NdArray (ASeq x5)].

(** What a successful [from_result] did, step by step: the table, the
    selected entry, the eight values read from [properties], the objects
    allocated and the fields of the [Result]. *)
Lemma from_result_layout qubo raw (props : gmap string pyval) w r w' :
  QAOAResult.from_result qubo raw props w = Ok (r, w') ->
  exists f w1 bb bv occ v1 x1 v2 x2 v3 x3 v4 x4 v5 x5 tb eb opt,
    QAOAResult.build_freq qubo raw w = Ok (f, w1) /\
    find_best f = (Some bb, Some bv, occ) /\
    let h := heap w in
    (props !! "init_beta" = Some v1 /\ items h v1 = Some x1) /\
    (props !! "init_gamma" = Some v2 /\
     items (h ++ [PyList x1]) v2 = Some x2) /\
    (props !! "final_beta" = Some v3 /\
     items (h ++ [PyList x1; PyList x2]) v3 = Some x3) /\
    (props !! "final_gamma" = Some v4 /\
     items (h ++ [PyList x1; PyList x2; PyList x3]) v4 = Some x4) /\
    (props !! "expval_history" = Some v5 /\
     items (h ++ [PyList x1; PyList x2; PyList x3; PyList x4]) v5 = Some x5) /\
    props !! "training_backend" = Some tb /\
    props !! "evaluation_backend" = Some eb /\
    props !! "optimizer" = Some opt /\
    Forall (fun xs => forallb is_scalar xs = true) [x1; x2; x3; x4; x5] /\
    r = QAOAResult.mk bb bv f
          (length h + 5) (length h + 6) (length h + 7) (length h + 8)
          (length h + 9) tb eb opt /\
    w' = World (h ++ allocated x1 x2 x3 x4 x5) (evals w1).
Proof.
  unfold QAOAResult.from_result. intros H.
  apply bind_Ok in H as (f & w1 & Hf & H).
  destruct (find_best f) as [[[bb|] [bv|]] occ] eqn:Hbest; try discriminate.
  pose proof (build_freq_inv _ _ _ _ _ Hf) as (_ & _ & _ & Hheap & _).
  destruct w1 as [h1 ev1]. simpl in Hheap. subst h1.
  apply bind_Ok in H as (a & wa & Ha & H).
  apply get_copy_inv in Ha as (v1 & x1 & Hv1 & Hx1 & -> & ->).
  apply bind_Ok in H as (b & wb & Hb & H).
  apply get_copy_inv in Hb as (v2 & x2 & Hv2 & Hx2 & -> & ->).
  apply bind_Ok in H as (c & wc & Hc & H).
  apply get_copy_inv in Hc as (v3 & x3 & Hv3 & Hx3 & -> & ->).
  apply bind_Ok in H as (d & wd & Hd & H).
  apply get_copy_inv in Hd as (v4 & x4 & Hv4 & Hx4 & -> & ->).
  apply bind_Ok in H as (e & we & He & H).
  apply get_copy_inv in He as (v5 & x5 & Hv5 & Hx5 & -> & ->).
  apply bind_Ok in H as (tb & wt & Ht & H). apply dict_get_inv in Ht as [Ht ->].
  apply bind_Ok in H as (eb & wv & Hv & H). apply dict_get_inv in Hv as [Hv ->].
  apply bind_Ok in H as (opt & wo & Ho & H). apply dict_get_inv in Ho as [Ho ->].
  simpl in *. rewrite <- !app_assoc in *. simpl in *.
  rewrite !length_app in H. simpl in H.
  apply init_inv in H
    as (l1 & w2 & l2 & w3 & l3 & w4 & l4 & w5 & l5 & H1 & H2 & H3 & H4 & H5 & ->).
  rewrite <- (Nat.add_0_r (length (heap w))) in H1 at 1.
  apply (check_copy _ _ _ _ x1) in H1 as (S1 & -> & ->); [|reflexivity].
  apply (check_copy _ _ _ _ x2) in H2 as (S2 & -> & ->); [|reflexivity].
  apply (check_copy _ _ _ _ x3) in H3 as (S3 & -> & ->); [|reflexivity].
  apply (check_copy _ _ _ _ x4) in H4 as (S4 & -> & ->); [|reflexivity].
  apply (check_copy _ _ _ _ x5) in H5 as (S5 & -> & ->); [|reflexivity].
  exists f, (World (heap w) ev1), bb, bv, occ,
    v1, x1, v2, x2, v3, x3, v4, x4, v5, x5, tb, eb, opt.
  simpl. repeat (split; [first [assumption|split; assumption]|]).
  split; [repeat constructor; assumption|]. split; reflexivity.
Qed.

(** X1.  A [Result] is returned only when [properties] holds all eight keys
    that [from_result] reads; the training backend, the evaluation backend
    and the optimizer of the [Result] are the values found under their keys,
    stored as they are. *)
Theorem from_result_reads_properties qubo raw (props : gmap string pyval)
    w r w' :
  QAOAResult.from_result qubo raw props w = Ok (r, w') ->
  Forall (fun k => is_Some (props !! k)) property_keys /\
  props !! "training_backend" = Some (QAOAResult.training_backend r) /\
  props !! "evaluation_backend" = Some (QAOAResult.evaluation_backend r) /\
  props !! "optimizer" = Some (QAOAResult.optimizer r).
Proof.
  intros H. apply from_result_layout in H
    as (f & w1 & bb & bv & occ & v1 & x1 & v2 & x2 & v3 & x3 & v4 & x4 & v5 & x5
        & tb & eb & opt & _ & _ & H).
  simpl in H.
  destruct H as ([K1 _] & [K2 _] & [K3 _] & [K4 _] & [K5 _] & Kt & Ke & Ko
                 & _ & -> & _).
  simpl. split; [|repeat split; assumption].
  unfold property_keys. repeat (apply Forall_cons_2; [eexists; eassumption|]).
  apply Forall_nil_2.
Qed.

Lemma from_result_reads_properties_witness :
  Forall (fun k => is_Some (properties_example !! k)) property_keys /\
  properties_example !! "optimizer" = Some (VConfig "optimizer").
Proof.
  destruct (from_result_reads_properties qubo_tie raw_example
              properties_example world_example result_example
              (World (heap world_example
                      ++ allocated
                           [AScalar 0.1%Q; AScalar 0.2%Q; AScalar 0.3%Q]
                           [AScalar 0.1%Q; AScalar 0.2%Q; AScalar 0.3%Q]
                           [AScalar 0.1%Q; AScalar 0.2%Q; AScalar 0.3%Q]
                           [AScalar 0.4%Q; AScalar 0.5%Q; AScalar 0.6%Q;
                            AScalar 0.7%Q]
                           [AScalar 3%Q; AScalar 2%Q])
                     [[false; false]; [false; true]; [true; false];
                      [true; true]]))
    as (Hk & _ & _ & Ho).
  - vm_compute. reflexivity.
  - split; [exact Hk|exact Ho].
Defined.

(** ** Errors of from_result *)

Definition is_KeyError (e : exn) : bool :=
  match e with KeyError _ => true | _ => false end.

Lemma dict_get_KeyError (d : gmap string pyval) k w e :
  dict_get d k w = Raise e -> e = KeyError k /\ d !! k = None.
Proof.
  unfold dict_get. destruct (d !! k); [discriminate|].
  intros H. injection H as <-. split; reflexivity.
Qed.

Lemma py_list_no_KeyError v w e :
  py_list v w = Raise e -> is_KeyError e = false.
Proof.
  destruct v as [l| |]; simpl; unfold bind, deref, raise.
  - destruct (heap w !! l) as [[xs|[x|xs]]|]; try discriminate;
      intros H; injection H as <-; reflexivity.
  - intros H; injection H as <-; reflexivity.
  - intros H; injection H as <-; reflexivity.
Qed.

Lemma check_arraylike_no_KeyError v name w e :
  check_arraylike v name w = Raise e -> is_KeyError e = false.
Proof.
  destruct v as [l| |]; simpl; unfold bind, deref, raise.
  - destruct (heap w !! l) as [[xs|[x|xs]]|];
      try destruct (forallb is_scalar xs); try discriminate;
      intros H; injection H as <-; reflexivity.
  - intros H; injection H as <-; reflexivity.
  - intros H; injection H as <-; reflexivity.
Qed.

Lemma init_no_KeyError bb bv f a b c d e tb eb opt w x :
  QAOAResult.__init__ bb bv f a b c d e tb eb opt w = Raise x ->
  is_KeyError x = false.
Proof.
  unfold QAOAResult.__init__. intros H. raise_cases H;
    try (eapply check_arraylike_no_KeyError, H); discriminate.
Qed.

(** The table of a raw sample map can only fail on a key that is not a
    bitstring: [raw_result[s]] is read for the keys of [raw_result] only, and
    the three lists handed to [Freq] have the same length. *)
Lemma build_freq_Raise_bit qubo raw w e :
  QAOAResult.build_freq qubo raw w = Raise e -> e = ValueError "not a bit".
Proof.
  unfold QAOAResult.build_freq. intros H.
  apply bind_Raise in H as [H|(bvs & w1 & Hb & H)].
  { apply traverse_lift_Raise in H as (s & _ & H).
    apply BitVector_of_str_Raise in H. exact H. }
  apply traverse_lift_inv in Hb as [Hb ->].
  rewrite (bind_step _ _ _ _ _ (traverse_evaluate qubo bvs w)) in H.
  apply bind_Raise in H as [H|(ns & w2 & Hn & H)].
  { apply traverse_lift_Raise in H as (s & Hs & H).
    destruct (getitem_key raw s Hs) as [n Hn]. rewrite Hn in H. discriminate. }
  apply traverse_lift_inv in Hn as [Hn _].
  unfold lift in H. rewrite Freq_new_Ok in H; [discriminate| |].
  - rewrite length_map. reflexivity.
  - rewrite length_map, <- (Forall2_length _ _ _ Hb).
    apply (Forall2_length _ _ _ Hn).
Qed.

(** X2.  A [KeyError] raised by [from_result] always names one of the eight
    keys it reads from [properties], and that key is missing there; reading
    [raw_result] never raises it. *)
Theorem from_result_KeyError qubo raw (props : gmap string pyval) w k :
  QAOAResult.from_result qubo raw props w = Raise (KeyError k) ->
  k ∈ property_keys /\ props !! k = None.
Proof.
  unfold QAOAResult.from_result. intros H.
  apply bind_Raise in H as [H|(f & w1 & _ & H)].
  { apply build_freq_Raise_bit in H. discriminate. }
  destruct (find_best f) as [[[bb|] [bv|]] occ]; try discriminate.
  assert (Hk : is_KeyError (KeyError k) = true) by reflexivity.
  unfold property_keys.
  raise_cases H;
    first [ apply dict_get_KeyError in H as [Hq Hnone]; injection Hq as ->;
            split; [set_solver|exact Hnone]
          | apply py_list_no_KeyError in H; rewrite H in Hk; discriminate
          | apply init_no_KeyError in H; rewrite H in Hk; discriminate ].
Qed.

Lemma from_result_KeyError_witness :
  "final_gamma"%string ∈ property_keys /\
  delete "final_gamma"%string properties_example !! "final_gamma"%string = None.
Proof.
  apply (from_result_KeyError qubo_tie raw_example
           (delete "final_gamma"%string properties_example) world_example).
  vm_compute. reflexivity.
Defined.

(** ** The entries of a built table *)

Lemma Freq_iter_lookup_inv f i b v n :
  Freq_iter f !! i = Some (b, v, n) ->
  bitvectors f !! i = Some b /\ energies f !! i = Some v /\
  num_occurrences f !! i = Some n.
Proof.
  unfold Freq_iter. intros H.
  apply lookup_zip_with_Some in H as ([b' v'] & n' & Heq & H & Hn).
  apply lookup_zip_with_Some in H as (b'' & v'' & Heq' & Hb & Hv).
  injection Heq' as -> ->. injection Heq as -> -> ->.
  repeat split; assumption.
Qed.

(** Every entry of the table built by lines 88-92 comes from a key of the
    raw sample map: its candidate is the key's bitvector, its score the
    objective at the candidate, its count the value stored under the key. *)
Lemma built_entry_of_key qubo raw w f w1 i b v n :
  QAOAResult.build_freq qubo raw w = Ok (f, w1) ->
  Freq_iter f !! i = Some (b, v, n) ->
  v = energy qubo b /\
  exists k, keys raw !! i = Some k /\ BitVector_of_str k = Ok b /\
            getitem raw k = Ok n.
Proof.
  intros Hf Hi. apply build_freq_inv in Hf as (Hb & He & Hn & _).
  apply Freq_iter_lookup_inv in Hi as (Hbi & Hvi & Hni).
  split.
  - rewrite He in Hvi. change (map (energy qubo) (bitvectors f))
      with (energy qubo <$> bitvectors f) in Hvi.
    rewrite list_lookup_fmap, Hbi in Hvi. injection Hvi as <-. reflexivity.
  - destruct (Forall2_lookup_r _ _ _ _ _ Hb Hbi) as (k & Hk & Hkb).
    destruct (Forall2_lookup_l _ _ _ _ _ Hn Hk) as (n' & Hni' & Hkn).
    rewrite Hni in Hni'. injection Hni' as <-.
    exists k. repeat split; assumption.
Qed.

(** The entry selected by the loop of a successful [from_result]. *)
Lemma from_result_best_entry qubo raw (props : gmap string pyval) w r w' :
  QAOAResult.from_result qubo raw props w = Ok (r, w') ->
  exists w1 i n,
    QAOAResult.build_freq qubo raw w = Ok (QAOAResult.freq r, w1) /\
    Freq_iter (QAOAResult.freq r) !! i
      = Some (QAOAResult.best_bitvector r, QAOAResult.best_value r, n).
Proof.
  intros H.
  apply from_result_fields in H as (f & w1 & occ & Hf & <- & Hbest & _).
  exists w1. unfold find_best in Hbest.
  destruct (fold_best_step (Freq_iter (QAOAResult.freq r)))
    as [[_ Hnone]|(i & [[b v] n] & Hsome & Hat & _)].
  - rewrite Hnone in Hbest. discriminate.
  - rewrite Hsome in Hbest. unfold chosen, candidate, score in Hbest.
    simpl in Hbest. injection Hbest as <- <- _.
    exists i, n. split; [exact Hf|exact Hat].
Qed.

(** X3.  In every [Result] built by [from_result] the best value is the
    objective evaluated at the best bitvector, and the best bitvector is the
    bitvector of a key of the raw sample map (its string form is that
    key). *)
Theorem from_result_best_value_is_energy qubo raw (props : gmap string pyval)
    w r w' :
  QAOAResult.from_result qubo raw props w = Ok (r, w') ->
  QAOAResult.best_value r = energy qubo (QAOAResult.best_bitvector r) /\
  exists k, k ∈ keys raw /\
            BitVector_of_str k = Ok (QAOAResult.best_bitvector r) /\
            BitVector_str (QAOAResult.best_bitvector r) = k.
Proof.
  intros H. apply from_result_best_entry in H as (w1 & i & n & Hf & Hi).
  destruct (built_entry_of_key _ _ _ _ _ _ _ _ _ Hf Hi)
    as (Hv & k & Hk & Hkb & _).
  split; [exact Hv|]. exists k. split; [|split].
  - eapply list_elem_of_lookup_2, Hk.
  - exact Hkb.
  - apply (BitVector_of_str_inv k _ Hkb).
Qed.

Lemma from_result_best_value_is_energy_witness :
  QAOAResult.best_value result_example
    = energy qubo_tie (QAOAResult.best_bitvector result_example) /\
  exists k, k ∈ keys raw_example /\
            BitVector_of_str k = Ok (QAOAResult.best_bitvector result_example) /\
            BitVector_str (QAOAResult.best_bitvector result_example) = k.
Proof.
  eapply (from_result_best_value_is_energy qubo_tie raw_example
            properties_example world_example result_example).
  vm_compute. reflexivity.
Defined.

(** ** When from_result succeeds *)

Lemma py_list_Ok v w xs :
  items (heap w) v = Some xs ->
  py_list v w = Ok (VRef (length (heap w)), World (heap w ++ [PyList xs]) (evals w)).
Proof.
  destruct v as [l| |]; simpl; [|discriminate..].
  unfold bind, deref. destruct (heap w !! l) as [[ys|[y|ys]]|]; try discriminate;
    intros H; injection H as ->; reflexivity.
Qed.

(** [list(properties[k])] in a store [h ++ t], for a value that points into
    [h]. *)
Lemma get_copy_Ok (props : gmap string pyval) k v xs h t ev :
  props !! k = Some v -> valid_ref h v -> items h v = Some xs ->
  (v <- dict_get props k ;; py_list v) (World (h ++ t) ev)
  = Ok (VRef (length h + length t), World (h ++ (t ++ [PyList xs])) ev).
Proof.
  intros Hk Hv Hi. unfold bind at 1. unfold dict_get. rewrite Hk. unfold ret.
  rewrite (py_list_Ok _ _ xs).
  - simpl. rewrite length_app, <- app_assoc. reflexivity.
  - simpl. rewrite (items_prefix h (h ++ t) v); [exact Hi| |exact Hv].
    apply prefix_app_r. reflexivity.
Qed.

Lemma dict_get_Ok (props : gmap string pyval) k v w :
  props !! k = Some v -> dict_get props k w = Ok (v, w).
Proof. intros H. unfold dict_get. rewrite H. reflexivity. Qed.

Lemma check_copy_Ok h t ev i xs name :
  t !! i = Some (PyList xs) -> forallb is_scalar xs = true ->
  check_arraylike (VRef (length h + i)) name (World (h ++ t) ev)
  = Ok ((length h + length t)%nat, World (h ++ (t ++ [NdArray (ASeq xs)])) ev).
Proof.
  intros Ht Hs.
  rewrite (check_arraylike_list _ _ _ xs)
    by (simpl; rewrite lookup_app_at; exact Ht).
  rewrite Hs. simpl. rewrite length_app, <- app_assoc. reflexivity.
Qed.

(** The constructor on the five lists that [from_result] has just made. *)
Lemma init_on_copies bb bv f tb eb opt h ev x1 x2 x3 x4 x5 :
  Forall (fun xs => forallb is_scalar xs = true) [x1; x2; x3; x4; x5] ->
  QAOAResult.__init__ bb bv f
    (VRef (length h + 0)) (VRef (length h + 1)) (VRef (length h + 2))
    (VRef (length h + 3)) (VRef (length h + 4)) tb eb opt
    (World (h ++ [PyList x1; PyList x2; PyList x3; PyList x4; PyList x5]) ev)
  = Ok (QAOAResult.mk bb bv f
          (length h + 5) (length h + 6) (length h + 7) (length h + 8)
          (length h + 9) tb eb opt,
        World (h ++ allocated x1 x2 x3 x4 x5) ev).
Proof.
  intros Hs.
  apply Forall_cons in Hs as [S1 Hs]. apply Forall_cons in Hs as [S2 Hs].
  apply Forall_cons in Hs as [S3 Hs]. apply Forall_cons in Hs as [S4 Hs].
  apply Forall_cons in Hs as [S5 _].
  unfold QAOAResult.__init__.
  set (p := [PyList x1; PyList x2; PyList x3; PyList x4; PyList x5]).
  rewrite (bind_step _ _ _ _ _ (check_copy_Ok h p ev 0 x1 _ eq_refl S1)).
  rewrite (bind_step _ _ _ _ _
             (check_copy_Ok h (p ++ [NdArray (ASeq x1)]) ev 1 x2 _ eq_refl S2)).
  rewrite (bind_step _ _ _ _ _
             (check_copy_Ok h ((p ++ [NdArray (ASeq x1)]) ++ [NdArray (ASeq x2)])
                ev 2 x3 _ eq_refl S3)).
  rewrite (bind_step _ _ _ _ _
             (check_copy_Ok h (((p ++ [NdArray (ASeq x1)]) ++ [NdArray (ASeq x2)])
                               ++ [NdArray (ASeq x3)])
                ev 3 x4 _ eq_refl S4)).
  rewrite (bind_step _ _ _ _ _
             (check_copy_Ok h ((((p ++ [NdArray (ASeq x1)]) ++ [NdArray (ASeq x2)])
                               ++ [NdArray (ASeq x3)]) ++ [NdArray (ASeq x4)])
                ev 4 x5 _ eq_refl S5)).
  reflexivity.
Qed.

(** A run of [from_result] on a non-empty map with bitstring keys, when
    [properties] holds the eight keys and the five array-like values are
    one-dimensional. *)
Lemma from_result_run qubo raw (props : gmap string pyval) w
    v1 v2 v3 v4 v5 tb eb opt x1 x2 x3 x4 x5 :
  raw <> [] ->
  Forall (fun k => is_bitstring k = true) (keys raw) ->
  props !! "init_beta" = Some v1 -> props !! "init_gamma" = Some v2 ->
  props !! "final_beta" = Some v3 -> props !! "final_gamma" = Some v4 ->
  props !! "expval_history" = Some v5 ->
  props !! "training_backend" = Some tb ->
  props !! "evaluation_backend" = Some eb ->
  props !! "optimizer" = Some opt ->
  Forall (valid_ref (heap w)) [v1; v2; v3; v4; v5] ->
  Forall2 (fun v xs => items (heap w) v = Some xs)
    [v1; v2; v3; v4; v5] [x1; x2; x3; x4; x5] ->
  Forall (fun xs => forallb is_scalar xs = true) [x1; x2; x3; x4; x5] ->
  exists f w1 e,
    QAOAResult.build_freq qubo raw w = Ok (f, w1) /\
    find_best f = chosen e /\
    QAOAResult.from_result qubo raw props w
    = Ok (QAOAResult.mk (candidate e) (score e) f
            (length (heap w) + 5) (length (heap w) + 6)
            (length (heap w) + 7) (length (heap w) + 8)
            (length (heap w) + 9) tb eb opt,
          World (heap w ++ allocated x1 x2 x3 x4 x5) (evals w1)).
Proof.
  intros Hne Hbits K1 K2 K3 K4 K5 Kt Ke Ko Hv Hi Hs.
  apply Forall_cons in Hv as [V1 Hv]. apply Forall_cons in Hv as [V2 Hv].
  apply Forall_cons in Hv as [V3 Hv]. apply Forall_cons in Hv as [V4 Hv].
  apply Forall_cons in Hv as [V5 _].
  apply Forall2_cons in Hi as [I1 Hi]. apply Forall2_cons in Hi as [I2 Hi].
  apply Forall2_cons in Hi as [I3 Hi]. apply Forall2_cons in Hi as [I4 Hi].
  apply Forall2_cons in Hi as [I5 _].
  destruct (build_freq_Ok qubo raw w Hbits) as (f & w1 & Hf).
  pose proof (Freq_iter_length_built _ _ _ _ _ Hf) as Hlen.
  pose proof (build_freq_inv _ _ _ _ _ Hf) as (_ & _ & _ & Hheap & _).
  destruct (fold_best_step (Freq_iter f)) as [[Hnil _]|(i & e & Hbest & _)].
  { rewrite Hnil in Hlen. destruct raw; [contradiction|discriminate]. }
  exists f, w1, e. split; [exact Hf|]. split; [exact Hbest|].
  unfold QAOAResult.from_result. rewrite (bind_step _ _ _ _ _ Hf).
  unfold find_best. rewrite Hbest. unfold chosen.
  destruct w1 as [h1 ev1]. simpl in Hheap. subst h1.
  replace (World (heap w) ev1) with (World (heap w ++ []) ev1)
    by (rewrite app_nil_r; reflexivity).
  rewrite (bind_step _ _ _ _ _ (get_copy_Ok props _ v1 x1 _ _ ev1 K1 V1 I1)).
  cbn [app length].
  rewrite (bind_step _ _ _ _ _ (get_copy_Ok props _ v2 x2 _ _ ev1 K2 V2 I2)).
  cbn [app length].
  rewrite (bind_step _ _ _ _ _ (get_copy_Ok props _ v3 x3 _ _ ev1 K3 V3 I3)).
  cbn [app length].
  rewrite (bind_step _ _ _ _ _ (get_copy_Ok props _ v4 x4 _ _ ev1 K4 V4 I4)).
  cbn [app length].
  rewrite (bind_step _ _ _ _ _ (get_copy_Ok props _ v5 x5 _ _ ev1 K5 V5 I5)).
  cbn [app length].
  rewrite (bind_step _ _ _ _ _ (dict_get_Ok props _ tb _ Kt)).
  rewrite (bind_step _ _ _ _ _ (dict_get_Ok props _ eb _ Ke)).
  rewrite (bind_step _ _ _ _ _ (dict_get_Ok props _ opt _ Ko)).
  apply init_on_copies, Hs.
Qed.

Lemma one_dimensional_items h v :
  one_dimensional h v = true <->
  exists xs, items h v = Some xs /\ forallb is_scalar xs = true.
Proof.
  unfold one_dimensional. destruct (items h v) as [xs|].
  - split; [intros H; exists xs; split; [reflexivity|exact H]|].
    intros (ys & Hy & Hs). injection Hy as ->. exact Hs.
  - split; [discriminate|]. intros (ys & Hy & _). discriminate.
Qed.

(** X4.  On a non-empty raw sample map with bitstring keys, when
    [properties] holds the eight keys, [from_result] returns a [Result]
    exactly when the five array-like properties are one-dimensional; no
    other condition on [properties] or on the objective is checked. *)
Theorem from_result_succeeds_iff qubo raw (props : gmap string pyval) w
    v1 v2 v3 v4 v5 tb eb opt :
  raw <> [] ->
  Forall (fun k => is_bitstring k = true) (keys raw) ->
  props !! "init_beta" = Some v1 -> props !! "init_gamma" = Some v2 ->
  props !! "final_beta" = Some v3 -> props !! "final_gamma" = Some v4 ->
  props !! "expval_history" = Some v5 ->
  props !! "training_backend" = Some tb ->
  props !! "evaluation_backend" = Some eb ->
  props !! "optimizer" = Some opt ->
  Forall (valid_ref (heap w)) [v1; v2; v3; v4; v5] ->
  ((exists r w', QAOAResult.from_result qubo raw props w = Ok (r, w')) <->
   Forall (fun v => one_dimensional (heap w) v = true) [v1; v2; v3; v4; v5]).
Proof.
  intros Hne Hbits K1 K2 K3 K4 K5 Kt Ke Ko Hv. split.
  - intros (r & w' & H). apply from_result_layout in H
      as (f & w1 & bb & bv & occ & u1 & x1 & u2 & x2 & u3 & x3 & u4 & x4
          & u5 & x5 & tb' & eb' & opt' & _ & _ & H).
    simpl in H.
    destruct H as ([L1 I1] & [L2 I2] & [L3 I3] & [L4 I4] & [L5 I5] & _ & _ & _
                   & Hs & _).
    rewrite K1 in L1. rewrite K2 in L2. rewrite K3 in L3. rewrite K4 in L4.
    rewrite K5 in L5.
    injection L1 as <-. injection L2 as <-. injection L3 as <-.
    injection L4 as <-. injection L5 as <-.
    apply Forall_cons in Hv as [V1 Hv]. apply Forall_cons in Hv as [V2 Hv].
    apply Forall_cons in Hv as [V3 Hv]. apply Forall_cons in Hv as [V4 Hv].
    apply Forall_cons in Hv as [V5 _].
    apply Forall_cons in Hs as [S1 Hs]. apply Forall_cons in Hs as [S2 Hs].
    apply Forall_cons in Hs as [S3 Hs]. apply Forall_cons in Hs as [S4 Hs].
    apply Forall_cons in Hs as [S5 _].
    assert (P : forall t, heap w `prefix_of` heap w ++ t)
      by (intros t; apply prefix_app_r; reflexivity).
    rewrite (items_prefix _ _ _ (P _) V2) in I2.
    rewrite (items_prefix _ _ _ (P _) V3) in I3.
    rewrite (items_prefix _ _ _ (P _) V4) in I4.
    rewrite (items_prefix _ _ _ (P _) V5) in I5.
    repeat (apply Forall_cons_2;
            [apply one_dimensional_items; eexists; split; eassumption|]).
    apply Forall_nil_2.
  - intros Hd.
    apply Forall_cons in Hd as [D1 Hd]. apply Forall_cons in Hd as [D2 Hd].
    apply Forall_cons in Hd as [D3 Hd]. apply Forall_cons in Hd as [D4 Hd].
    apply Forall_cons in Hd as [D5 _].
    apply one_dimensional_items in D1 as (x1 & I1 & S1).
    apply one_dimensional_items in D2 as (x2 & I2 & S2).
    apply one_dimensional_items in D3 as (x3 & I3 & S3).
    apply one_dimensional_items in D4 as (x4 & I4 & S4).
    apply one_dimensional_items in D5 as (x5 & I5 & S5).
    destruct (from_result_run qubo raw props w v1 v2 v3 v4 v5 tb eb opt
                x1 x2 x3 x4 x5 Hne Hbits K1 K2 K3 K4 K5 Kt Ke Ko Hv)
      as (f & w1 & e & _ & _ & Hrun).
    + repeat (apply Forall2_cons_2; [assumption|]). apply Forall2_nil_2.
    + repeat (apply Forall_cons_2; [assumption|]). apply Forall_nil_2.
    + eexists _, _. exact Hrun.
Qed.

Lemma from_result_succeeds_iff_witness :
  (exists r w',
     QAOAResult.from_result qubo_tie raw_example properties_example
       world_example = Ok (r, w')) /\
  ~ (exists r w',
       QAOAResult.from_result qubo_tie raw_example
         (<["final_beta"%string := VRef 3%nat]> properties_example)
         world_example = Ok (r, w')).
Proof.
  split.
  - apply (from_result_succeeds_iff qubo_tie raw_example properties_example
             world_example (VRef 0%nat) (VRef 0%nat) (VRef 0%nat) (VRef 1%nat)
             (VRef 2%nat) (VConfig "training") (VConfig "evaluation")
             (VConfig "optimizer")); try reflexivity.
    + discriminate.
    + repeat constructor.
    + repeat apply Forall_cons_2; try apply Forall_nil_2; simpl; lia.
    + repeat constructor.
  - intros H.
    apply (from_result_succeeds_iff qubo_tie raw_example
             (<["final_beta"%string := VRef 3%nat]> properties_example)
             world_example (VRef 0%nat) (VRef 0%nat) (VRef 3%nat) (VRef 1%nat)
             (VRef 2%nat) (VConfig "training") (VConfig "evaluation")
             (VConfig "optimizer")) in H; try reflexivity.
    + apply Forall_cons in H as [_ H]. apply Forall_cons in H as [_ H].
      apply Forall_cons in H as [H _]. discriminate H.
    + discriminate.
    + repeat constructor.
    + repeat apply Forall_cons_2; try apply Forall_nil_2; simpl; lia.
Defined.

(** ** The line plots of a built Result *)

(** The numbers stored by a successful [from_result] for the final
    parameters and the history, read in any later store that differs only
    in objects that existed before the build. *)
Lemma built_result_trace qubo raw (props : gmap string pyval) w r w' :
  properties_valid props (heap w) ->
  QAOAResult.from_result qubo raw props w = Ok (r, w') ->
  exists vb vg vh beta gamma hist,
    props !! "final_beta" = Some vb /\ numbers (heap w) vb = Some beta /\
    props !! "final_gamma" = Some vg /\ numbers (heap w) vg = Some gamma /\
    props !! "expval_history" = Some vh /\ numbers (heap w) vh = Some hist /\
    forall h'' : list pyobj,
      (forall j : nat, (length (heap w) <= j)%nat -> h'' !! j = heap w' !! j) ->
      read_array h'' (QAOAResult.final_beta r) = Some beta /\
      read_array h'' (QAOAResult.final_gamma r) = Some gamma /\
      read_array h'' (QAOAResult.expval_history r) = Some hist.
Proof.
  intros Hvalid H. apply from_result_layout in H
    as (f & w1 & bb & bv & occ & v1 & x1 & v2 & x2 & v3 & x3 & v4 & x4 & v5 & x5
        & tb & eb & opt & _ & _ & H).
  simpl in H.
  destruct H as (_ & _ & [K3 I3] & [K4 I4] & [K5 I5] & _ & _ & _ & Hs & -> & ->).
  apply Forall_cons in Hs as [_ Hs]. apply Forall_cons in Hs as [_ Hs].
  apply Forall_cons in Hs as [S3 Hs]. apply Forall_cons in Hs as [S4 Hs].
  apply Forall_cons in Hs as [S5 _].
  assert (P : forall t, heap w `prefix_of` heap w ++ t)
    by (intros t; apply prefix_app_r; reflexivity).
  rewrite (items_prefix _ _ _ (P _) (Hvalid _ _ K3)) in I3.
  rewrite (items_prefix _ _ _ (P _) (Hvalid _ _ K4)) in I4.
  rewrite (items_prefix _ _ _ (P _) (Hvalid _ _ K5)) in I5.
  destruct (scalars_numbers x3 S3) as [beta Hbeta].
  destruct (scalars_numbers x4 S4) as [gamma Hgamma].
  destruct (scalars_numbers x5 S5) as [hist Hhist].
  exists v3, v4, v5, beta, gamma, hist.
  unfold numbers. rewrite I3, I4, I5.
  repeat (split; [assumption|]).
  simpl heap. intros h'' Hagree. simpl.
  rewrite (read_array_at (heap w) (allocated x1 x2 x3 x4 x5) 9 x5 hist h''
             eq_refl Hhist Hagree).
  rewrite (read_array_at (heap w) (allocated x1 x2 x3 x4 x5) 7 x3 beta h''
             eq_refl Hbeta Hagree).
  rewrite (read_array_at (heap w) (allocated x1 x2 x3 x4 x5) 8 x4 gamma h''
             eq_refl Hgamma Hagree).
  repeat split.
Qed.

(** X5.  For a [Result] built by [from_result], the iteration view returns
    and plots the numbers that [properties["expval_history"]] held at build
    time against the indices 0, 1, ...; this holds in every later store that
    differs only in objects that existed before the build. *)
Theorem built_result_expval_plot qubo raw (props : gmap string pyval) w r w' :
  properties_valid props (heap w) ->
  QAOAResult.from_result qubo raw props w = Ok (r, w') ->
  exists vh hist,
    props !! "expval_history" = Some vh /\ numbers (heap w) vh = Some hist /\
    forall h'' : list pyobj,
      (forall j : nat, (length (heap w) <= j)%nat -> h'' !! j = heap w' !! j) ->
      QAOAResult.plot_expval_history r h''
        = Ok (seq 0 (length hist), hist).
Proof.
  intros Hvalid H.
  destruct (built_result_trace _ _ _ _ _ _ Hvalid H)
    as (vb & vg & vh & beta & gamma & hist & _ & _ & _ & _ & Kh & Nh & Hread).
  exists vh, hist. split; [exact Kh|]. split; [exact Nh|].
  intros h'' Hagree. destruct (Hread h'' Hagree) as (_ & _ & Hh).
  unfold QAOAResult.plot_expval_history. rewrite Hh.
  apply ax_plot_own_indices.
Qed.

Lemma built_result_expval_plot_witness :
  exists w',
    QAOAResult.from_result qubo_tie raw_example properties_example
      world_example = Ok (result_example, w') /\
    QAOAResult.plot_expval_history result_example
      (<[2%nat := PyList []]> (heap w'))
      = Ok ([0; 1]%nat, [3%Q; 2%Q]).
Proof.
  eexists. split; [vm_compute; reflexivity|].
  edestruct (built_result_expval_plot qubo_tie raw_example properties_example
               world_example result_example)
    as (vh & hist & Kh & Nh & H).
  - exact properties_example_valid.
  - vm_compute. reflexivity.
  - vm_compute in Kh. injection Kh as <-.
    vm_compute in Nh. injection Nh as <-.
    apply H. intros j Hj. simpl in Hj.
    rewrite list_lookup_insert_ne by lia. reflexivity.
Defined.

(** X12.  For a [Result] built by [from_result], the parameter view plots
    the numbers that [properties["final_beta"]] and
    [properties["final_gamma"]] held at build time, both against the indices
    of [final_beta], when the two have the same length; when they differ in
    length it fails with the [ValueError] of [ax.plot] (line 180).  This
    holds in every later store that differs only in objects that existed
    before the build. *)
Theorem built_result_parameters_plot qubo raw (props : gmap string pyval)
    w r w' :
  properties_valid props (heap w) ->
  QAOAResult.from_result qubo raw props w = Ok (r, w') ->
  exists vb vg beta gamma,
    props !! "final_beta" = Some vb /\ numbers (heap w) vb = Some beta /\
    props !! "final_gamma" = Some vg /\ numbers (heap w) vg = Some gamma /\
    forall h'' : list pyobj,
      (forall j : nat, (length (heap w) <= j)%nat -> h'' !! j = heap w' !! j) ->
      QAOAResult.plot_parameters r h'' =
        if Nat.eqb (length beta) (length gamma)
        then Ok ((seq 0 (length beta), beta), (seq 0 (length beta), gamma))
        else Raise (ValueError "x and y must have same first dimension").
Proof.
  intros Hvalid H.
  destruct (built_result_trace _ _ _ _ _ _ Hvalid H)
    as (vb & vg & vh & beta & gamma & hist & Kb & Nb & Kg & Ng & _ & _ & Hread).
  exists vb, vg, beta, gamma. repeat (split; [assumption|]).
  intros h'' Hagree. destruct (Hread h'' Hagree) as (Hb & Hg & _).
  apply plot_parameters_read; assumption.
Qed.

(** The properties of the examples with a [final_gamma] as long as
    [final_beta]. *)
Definition properties_equal_lengths : gmap string pyval :=
  <["final_gamma"%string := VRef 0%nat]> properties_example.

Lemma built_result_parameters_plot_witness :
  (exists r w',
     QAOAResult.from_result qubo_tie raw_example properties_example
       world_example = Ok (r, w') /\
     QAOAResult.plot_parameters r (heap w')
       = Raise (ValueError "x and y must have same first dimension")) /\
  (exists r w',
     QAOAResult.from_result qubo_tie raw_example properties_equal_lengths
       world_example = Ok (r, w') /\
     QAOAResult.plot_parameters r (<[0%nat := PyList []]> (heap w'))
       = Ok (([0; 1; 2]%nat, [0.1%Q; 0.2%Q; 0.3%Q]),
             ([0; 1; 2]%nat, [0.1%Q; 0.2%Q; 0.3%Q]))).
Proof.
  split.
  - eexists _, _. split; [vm_compute; reflexivity|].
    edestruct (built_result_parameters_plot qubo_tie raw_example
                 properties_example world_example)
      as (vb & vg & beta & gamma & Kb & Nb & Kg & Ng & H).
    + exact properties_example_valid.
    + vm_compute. reflexivity.
    + vm_compute in Kb, Kg. injection Kb as <-. injection Kg as <-.
      vm_compute in Nb, Ng. injection Nb as <-. injection Ng as <-.
      apply H. intros j Hj. reflexivity.
  - eexists _, _. split; [vm_compute; reflexivity|].
    edestruct (built_result_parameters_plot qubo_tie raw_example
                 properties_equal_lengths world_example)
      as (vb & vg & beta & gamma & Kb & Nb & Kg & Ng & H).
    + intros k v Hk. unfold properties_equal_lengths in Hk.
      apply lookup_insert_Some in Hk as [[_ <-]|[_ Hk]]; [simpl; lia|].
      exact (properties_example_valid k v Hk).
    + vm_compute. reflexivity.
    + vm_compute in Kb, Kg. injection Kb as <-. injection Kg as <-.
      vm_compute in Nb, Ng. injection Nb as <-. injection Ng as <-.
      apply H. intros j Hj. simpl in Hj.
      rewrite list_lookup_insert_ne by lia. reflexivity.
Defined.

(** ** The error of the constructor *)

(** The five checked arguments of the constructor with the names they are
    checked under, in the order of lines 57-61. *)
Definition checked_fields (init_beta init_gamma final_beta final_gamma
    expval_history : pyval) : list (string * pyval) :=
  [("init_beta"%string, init_beta); ("init_gamma"%string, init_gamma);
   ("final_beta"%string, final_beta); ("final_gamma"%string, final_gamma);
   ("expval_history"%string, expval_history)].

Lemma check_arraylike_ShapeError v n w name :
  check_arraylike v n w = Raise (ShapeError name) ->
  n = name /\ one_dimensional (heap w) v = false.
Proof.
  unfold one_dimensional. destruct v as [l| |]; simpl; unfold bind, deref, raise.
  - destruct (heap w !! l) as [[xs|[x|xs]]|];
      try destruct (forallb is_scalar xs); try discriminate;
      intros H; injection H as <-; split; reflexivity.
  - intros H; injection H as <-; split; reflexivity.
  - discriminate.
Qed.

Lemma check_passed v name w l w1 h0 :
  check_arraylike v name w = Ok (l, w1) ->
  h0 `prefix_of` heap w -> valid_ref h0 v ->
  one_dimensional h0 v = true /\ h0 `prefix_of` heap w1.
Proof.
  intros H Hp Hv. apply check_arraylike_spec in H as (xs & Hi & Hs & _ & P & _).
  split; [|etrans; eassumption].
  rewrite <- (one_dimensional_prefix _ _ _ Hp Hv). unfold one_dimensional.
  rewrite Hi. exact Hs.
Qed.

Lemma check_refused v n w name h0 :
  check_arraylike v n w = Raise (ShapeError name) ->
  h0 `prefix_of` heap w -> valid_ref h0 v ->
  n = name /\ one_dimensional h0 v = false.
Proof.
  intros H Hp Hv. apply check_arraylike_ShapeError in H as [-> H].
  split; [reflexivity|]. rewrite <- (one_dimensional_prefix _ _ _ Hp Hv). exact H.
Qed.

(** X6.  When the constructor fails with [ShapeError], the error names the
    first of the five trace arguments, in the order init_beta, init_gamma,
    final_beta, final_gamma, expval_history, that is not one-dimensional:
    every argument checked before it is one-dimensional and the named one is
    not. *)
Theorem init_ShapeError_names_first_bad_field bb bv f a b c d e tb eb opt w
    name :
  Forall (valid_ref (heap w)) [a; b; c; d; e] ->
  QAOAResult.__init__ bb bv f a b c d e tb eb opt w = Raise (ShapeError name) ->
  exists pre v post,
    checked_fields a b c d e = pre ++ (name, v) :: post /\
    Forall (fun p => one_dimensional (heap w) p.2 = true) pre /\
    one_dimensional (heap w) v = false.
Proof.
  intros Hv H.
  apply Forall_cons in Hv as [Va Hv]. apply Forall_cons in Hv as [Vb Hv].
  apply Forall_cons in Hv as [Vc Hv]. apply Forall_cons in Hv as [Vd Hv].
  apply Forall_cons in Hv as [Ve _].
  assert (P0 : heap w `prefix_of` heap w) by reflexivity.
  unfold QAOAResult.__init__ in H. unfold checked_fields.
  apply bind_Raise in H as [H|(l1 & w1 & H1 & H)].
  { destruct (check_refused _ _ _ _ _ H P0 Va) as [<- Hbad].
    exists [], a, [("init_gamma"%string, b); ("final_beta"%string, c);
                   ("final_gamma"%string, d); ("expval_history"%string, e)].
    repeat split; [constructor|exact Hbad]. }
  destruct (check_passed _ _ _ _ _ _ H1 P0 Va) as [Oa P1].
  apply bind_Raise in H as [H|(l2 & w2 & H2 & H)].
  { destruct (check_refused _ _ _ _ _ H P1 Vb) as [<- Hbad].
    exists [("init_beta"%string, a)], b,
      [("final_beta"%string, c); ("final_gamma"%string, d);
       ("expval_history"%string, e)].
    repeat split; [repeat constructor; assumption|exact Hbad]. }
  destruct (check_passed _ _ _ _ _ _ H2 P1 Vb) as [Ob P2].
  apply bind_Raise in H as [H|(l3 & w3 & H3 & H)].
  { destruct (check_refused _ _ _ _ _ H P2 Vc) as [<- Hbad].
    exists [("init_beta"%string, a); ("init_gamma"%string, b)], c,
      [("final_gamma"%string, d); ("expval_history"%string, e)].
    repeat split; [repeat constructor; assumption|exact Hbad]. }
  destruct (check_passed _ _ _ _ _ _ H3 P2 Vc) as [Oc P3].
  apply bind_Raise in H as [H|(l4 & w4 & H4 & H)].
  { destruct (check_refused _ _ _ _ _ H P3 Vd) as [<- Hbad].
    exists [("init_beta"%string, a); ("init_gamma"%string, b);
            ("final_beta"%string, c)], d, [("expval_history"%string, e)].
    repeat split; [repeat constructor; assumption|exact Hbad]. }
  destruct (check_passed _ _ _ _ _ _ H4 P3 Vd) as [Od P4].
  apply bind_Raise in H as [H|(l5 & w5 & H5 & H)]; [|discriminate].
  destruct (check_refused _ _ _ _ _ H P4 Ve) as [<- Hbad].
  exists [("init_beta"%string, a); ("init_gamma"%string, b);
          ("final_beta"%string, c); ("final_gamma"%string, d)], e, [].
  repeat split; [repeat constructor; assumption|exact Hbad].
Qed.

Lemma init_ShapeError_names_first_bad_field_witness :
  exists pre v post,
    checked_fields (VRef 0%nat) (VRef 1%nat) (VRef 3%nat) (VFloat 1%Q)
      (VRef 2%nat) = pre ++ ("final_beta"%string, v) :: post /\
    Forall (fun p => one_dimensional (heap world_example) p.2 = true) pre /\
    one_dimensional (heap world_example) v = false.
Proof.
  apply (init_ShapeError_names_first_bad_field [false; true] 1%Q
           (mkFreq [] [] []) _ _ _ _ _
           (VConfig "training") (VConfig "evaluation") (VConfig "optimizer")
           world_example).
  - repeat apply Forall_cons_2; try apply Forall_nil_2; simpl; try lia; exact I.
  - vm_compute. reflexivity.
Defined.

(** ** The shot histogram, without assumptions on the lengths *)

Lemma list_iadd_Ok_inv (height : list Z) i n height' :
  0 <= i -> list_iadd height i n = Ok height' ->
  i < Z.of_nat (length height) /\ length height' = length height.
Proof.
  intros Hi. unfold list_iadd.
  destruct (i <? 0) eqn:Hneg; [lia|].
  destruct (0 <=? i); [|discriminate].
  destruct (i <? Z.of_nat (length height)) eqn:Hlt; [|discriminate].
  simpl. destruct (height !! Z.to_nat i) as [x|]; [|discriminate].
  intros H. injection H as <-. rewrite length_insert. split; [lia|reflexivity].
Qed.

(** The accumulation loop returns only if every candidate is non-empty and
    decodes to an index inside the list of heights. *)
Lemma accumulate_Ok_inv es :
  forall height height',
    accumulate height es = Ok height' ->
    Forall (fun e => candidate e <> [] /\
                     decode (candidate e) < Z.of_nat (length height)) es.
Proof.
  induction es as [|[[b v] n] es IH]; intros height height' H; [constructor|].
  simpl in H. rewrite int_base2_str in H.
  destruct b as [|x b]; [discriminate|]. set (c := x :: b) in *.
  destruct (list_iadd height (decode c) n) as [h1|] eqn:Hadd; [|discriminate].
  pose proof (decode_bound c) as Hc.
  apply list_iadd_Ok_inv in Hadd as [Hlt Hlen]; [|lia].
  constructor.
  - change (candidate (c, v, n)) with c. split; [discriminate|exact Hlt].
  - rewrite <- Hlen. eapply IH, H.
Qed.


(** X8.  Whenever the histogram view returns, whatever the lengths of the
    candidates, it returns [2^n] labels and [2^n] heights ([n] the length of
    the best bitvector), the heights sum to the sum of the occurrence counts
    of the table, and the height at position [i] is the summed count of the
    entries whose candidate decodes to [i]. *)
Theorem shots_histogram_returns r xs hs :
  QAOAResult.plot_shots_histogram r = Ok (xs, hs) ->
  let n := length (QAOAResult.best_bitvector r) in
  length xs = (2 ^ n)%nat /\ length hs = (2 ^ n)%nat /\
  Zsum hs = Zsum (map count (Freq_iter (QAOAResult.freq r))) /\
  forall i, (i < 2 ^ n)%nat ->
    hs !! i = Some (bucket (Freq_iter (QAOAResult.freq r)) i).
Proof.
  intros H. cbv zeta. unfold QAOAResult.plot_shots_histogram in H.
  set (n := length (QAOAResult.best_bitvector r)) in *.
  set (xs0 := map string_of_list_ascii (product ["0"%char; "1"%char] n)) in *.
  assert (Hxs : length xs0 = (2 ^ n)%nat).
  { unfold xs0. rewrite length_map. apply product01_length. }
  destruct (accumulate _ _) as [h|] eqn:Hacc; [|discriminate].
  injection H as <- <-.
  pose proof (accumulate_Ok_inv _ _ _ Hacc) as Hall.
  destruct (accumulate_Ok (Freq_iter (QAOAResult.freq r))
              (map (fun _ => 0) xs0)) as (h' & Hacc' & Hlen & Hsum & Hl).
  { intros e He. exact (proj1 (Forall_forall _ _) Hall e He). }
  assert (h' = h) as -> by congruence.
  rewrite length_map in Hlen. rewrite Zsum_zeros in Hsum.
  split; [exact Hxs|]. split; [congruence|]. split; [lia|].
  intros i Hi. rewrite Hl.
  change (map (fun _ => 0) xs0) with ((fun _ => 0) <$> xs0).
  rewrite list_lookup_fmap.
  destruct (lookup_lt_is_Some_2 xs0 i) as [x ->]; [lia|]. reflexivity.
Qed.

(** A [Result] whose table holds the 1-bit candidate "1" and the 2-bit
    candidate "01": both decode to 1. *)
Definition result_lumped : QAOAResult.t :=
  QAOAResult.mk [false; true] 1%Q
    (mkFreq [[true]; [false; true]] [2%Q; 1%Q] [4; 2])
    9%nat 10%nat 11%nat 12%nat 13%nat
    (VConfig "training") (VConfig "evaluation") (VConfig "optimizer").

Lemma shots_histogram_returns_witness :
  QAOAResult.plot_shots_histogram result_lumped
    = Ok (["00"; "01"; "10"; "11"]%string, [0; 6; 0; 0]) /\
  Zsum [0; 6; 0; 0] = 6 /\
  [0; 6; 0; 0] !! 1%nat
    = Some (bucket (Freq_iter (QAOAResult.freq result_lumped)) 1).
Proof.
  split; [reflexivity|].
  destruct (shots_histogram_returns result_lumped
              ["00"; "01"; "10"; "11"]%string [0; 6; 0; 0] eq_refl)
    as (_ & _ & Hsum & Hb).
  split; [exact Hsum|]. apply Hb. simpl. lia.
Defined.

(** ** Labels and indices of the histogram *)

Lemma half_parity m (x : bool) :
  ((2 * m + Nat.b2n x) / 2 = m)%nat /\ Nat.odd (2 * m + Nat.b2n x) = x.
Proof.
  split.
  - rewrite (Nat.mul_comm 2 m), Nat.div_add_l by lia.
    destruct x; simpl; lia.
  - rewrite Nat.add_comm, Nat.odd_add_mul_2. destruct x; reflexivity.
Qed.

(** Decoding and the binary representation are inverse to each other. *)
Lemma bits_of_decode b : bits_of (length b) (Z.to_nat (decode b)) = b.
Proof.
  induction b as [|x b IH] using rev_ind; [reflexivity|].
  rewrite length_app. simpl length. rewrite Nat.add_1_r.
  unfold decode. rewrite decode_from_app. fold (decode b).
  pose proof (decode_bound b) as Hd.
  assert (Hi : Z.to_nat (2 * decode b + (if x then 1 else 0))
               = (2 * Z.to_nat (decode b) + Nat.b2n x)%nat)
    by (destruct x; simpl Nat.b2n; lia).
  rewrite Hi.
  change (bits_of (S (length b)) (2 * Z.to_nat (decode b) + Nat.b2n x))
    with (bits_of (length b) ((2 * Z.to_nat (decode b) + Nat.b2n x) / 2)
          ++ [Nat.odd (2 * Z.to_nat (decode b) + Nat.b2n x)]).
  destruct (half_parity (Z.to_nat (decode b)) x) as [-> ->].
  rewrite IH. reflexivity.
Qed.

Lemma decode_inj b b' :
  length b = length b' -> decode b = decode b' -> b = b'.
Proof.
  intros Hlen Hd. rewrite <- (bits_of_decode b), <- (bits_of_decode b').
  rewrite Hlen, Hd. reflexivity.
Qed.

Lemma BitVector_str_inj b b' : BitVector_str b = BitVector_str b' -> b = b'.
Proof.
  revert b'. induction b as [|x b IH]; intros [|y b'] H; try discriminate.
  - reflexivity.
  - simpl in H. injection H as Hc Hs. f_equal; [|apply IH, Hs].
    destruct x, y; try reflexivity; discriminate.
Qed.

(** The labels of line 157. *)
Lemma labels_lookup n i :
  (i < 2 ^ n)%nat ->
  map string_of_list_ascii (product ["0"%char; "1"%char] n) !! i
  = Some (BitVector_str (bits_of n i)).
Proof.
  intros Hi.
  change (map string_of_list_ascii (product ["0"%char; "1"%char] n))
    with (string_of_list_ascii <$> product ["0"%char; "1"%char] n).
  rewrite list_lookup_fmap, (product01_lookup n i Hi). simpl.
  rewrite str_of_chars. reflexivity.
Qed.

Lemma labels_NoDup n :
  NoDup (map string_of_list_ascii (product ["0"%char; "1"%char] n)).
Proof.
  apply NoDup_alt. intros i j s Hi Hj.
  assert (Hlen : length (map string_of_list_ascii
                           (product ["0"%char; "1"%char] n)) = (2 ^ n)%nat)
    by (rewrite length_map; apply product01_length).
  pose proof (lookup_lt_Some _ _ _ Hi) as Li.
  pose proof (lookup_lt_Some _ _ _ Hj) as Lj.
  rewrite Hlen in Li, Lj.
  rewrite (labels_lookup n i Li) in Hi. rewrite (labels_lookup n j Lj) in Hj.
  rewrite <- Hj in Hi. injection Hi as Hs. apply BitVector_str_inj in Hs.
  apply Nat2Z.inj. rewrite <- (decode_bits_of n i Li), <- (decode_bits_of n j Lj).
  rewrite Hs. reflexivity.
Qed.

(** X9.  When the histogram view returns, its labels are pairwise distinct,
    and for every candidate that has as many bits as the best bitvector the
    index computed at line 160 is the position of the label that spells the
    candidate: its count is added to its own bar. *)
Theorem shots_histogram_bar_of_candidate r xs hs :
  QAOAResult.plot_shots_histogram r = Ok (xs, hs) ->
  NoDup xs /\
  forall e, e ∈ Freq_iter (QAOAResult.freq r) ->
    length (candidate e) = length (QAOAResult.best_bitvector r) ->
    exists i, int_base2 (BitVector_str (candidate e)) = Ok i /\
              xs !! Z.to_nat i = Some (BitVector_str (candidate e)).
Proof.
  intros H.
  assert (Hok : exists xs hs, QAOAResult.plot_shots_histogram r = Ok (xs, hs))
    by (eexists _, _; exact H).
  unfold QAOAResult.plot_shots_histogram in H, Hok.
  destruct (accumulate _ _) as [h|] eqn:Hacc; [|discriminate].
  injection H as <- <-. split; [apply labels_NoDup|].
  intros e He Hlen. apply accumulate_Ok_inv in Hacc.
  destruct (proj1 (Forall_forall _ _) Hacc e He) as [Hne _].
  exists (decode (candidate e)). rewrite int_base2_str.
  destruct (candidate e) as [|x b] eqn:Hc; [contradiction|]. rewrite <- Hc in *.
  split; [reflexivity|].
  pose proof (decode_bound (candidate e)) as Hd.
  rewrite labels_lookup.
  - rewrite <- Hlen, bits_of_decode. reflexivity.
  - rewrite <- Hlen. apply Nat2Z.inj_lt. rewrite Nat2Z.inj_pow, Z2Nat.id by lia.
    simpl. lia.
Qed.

Lemma shots_histogram_bar_of_candidate_witness :
  NoDup ["00"; "01"; "10"; "11"]%string /\
  exists i, int_base2 (BitVector_str [true; false]) = Ok i /\
            ["00"; "01"; "10"; "11"]%string !! Z.to_nat i = Some "10"%string.
Proof.
  destruct (shots_histogram_bar_of_candidate result_example
              ["00"; "01"; "10"; "11"]%string [5; 3; 3; 1] eq_refl)
    as [Hnd Hbar].
  split; [exact Hnd|].
  apply (Hbar ([true; false], 1%Q, 3)); [|reflexivity].
  do 2 apply list_elem_of_further. apply list_elem_of_here.
Defined.

(** ** From the raw sample map to the histogram *)

Lemma built_entry_at qubo raw w f w1 j k c :
  QAOAResult.build_freq qubo raw w = Ok (f, w1) ->
  dict_wf raw -> raw !! j = Some (k, c) ->
  exists b, BitVector_of_str k = Ok b /\
            Freq_iter f !! j = Some (b, energy qubo b, c).
Proof.
  intros Hf Hwf Hj. apply build_freq_inv in Hf as (Hb & He & Hn & _).
  assert (Hk : keys raw !! j = Some k).
  { unfold keys. change (map fst raw) with (fst <$> raw).
    rewrite list_lookup_fmap, Hj. reflexivity. }
  destruct (Forall2_lookup_l _ _ _ _ _ Hb Hk) as (b & Hbj & Hkb).
  destruct (Forall2_lookup_l _ _ _ _ _ Hn Hk) as (c' & Hnj & Hkc).
  rewrite (getitem_lookup raw j k c Hwf Hj) in Hkc. injection Hkc as <-.
  exists b. split; [exact Hkb|].
  apply Freq_iter_lookup; [exact Hbj| |exact Hnj].
  rewrite He. change (map (energy qubo) (bitvectors f))
    with (energy qubo <$> bitvectors f).
  rewrite list_lookup_fmap, Hbj. reflexivity.
Qed.

(** The bucket of an index that exactly one entry decodes to. *)
Lemma bucket_unique es :
  forall j e i,
    es !! j = Some e ->
    decode (candidate e) = Z.of_nat i ->
    (forall j' e', es !! j' = Some e' ->
       decode (candidate e') = Z.of_nat i -> j' = j) ->
    bucket es i = count e.
Proof.
  induction es as [|e0 es IH]; intros j e i Hj Hd Huniq; [discriminate|].
  rewrite bucket_cons. destruct j as [|j]; simpl in Hj.
  - injection Hj as ->.
    rewrite bucket_none.
    + destruct (decide (decode (candidate e) = Z.of_nat i)); [lia|contradiction].
    + intros e' He' Hd'. apply list_elem_of_lookup_1 in He' as [j' Hj'].
      specialize (Huniq (S j') e' Hj' Hd'). discriminate.
  - destruct (decide (decode (candidate e0) = Z.of_nat i)) as [Hd0|_].
    + specialize (Huniq 0%nat e0 eq_refl Hd0). discriminate.
    + rewrite (IH j e i Hj Hd); [lia|].
      intros j' e' Hj' Hd'. specialize (Huniq (S j') e' Hj' Hd'). lia.
Qed.

(** X10.  For a [Result] built by [from_result] from a dictionary whose keys
    are bitstrings of one length [n >= 1], the histogram view returns, the
    bar labelled with a key of the raw sample map has the count stored under
    that key, and every bar whose label is not a key has height zero. *)
Theorem built_histogram_shows_counts qubo raw (props : gmap string pyval)
    w r w' n :
  dict_wf raw ->
  Forall (fun k => is_bitstring k = true /\ String.length k = n) (keys raw) ->
  (0 < n)%nat ->
  QAOAResult.from_result qubo raw props w = Ok (r, w') ->
  exists xs hs,
    QAOAResult.plot_shots_histogram r = Ok (xs, hs) /\
    (forall j k c, raw !! j = Some (k, c) ->
       exists i, xs !! i = Some k /\ hs !! i = Some c) /\
    (forall i k, xs !! i = Some k -> k ∉ keys raw -> hs !! i = Some 0).
Proof.
  intros Hwf Hkeys Hn H.
  apply from_result_best_entry in H as (w1 & i0 & n0 & Hf & Hbest).
  set (es := Freq_iter (QAOAResult.freq r)) in *.
  assert (Hentry : forall j b v c, es !! j = Some (b, v, c) ->
            length b = n /\ exists k, keys raw !! j = Some k /\
                                      BitVector_str b = k).
  { intros j b v c Hj.
    destruct (built_entry_of_key _ _ _ _ _ _ _ _ _ Hf Hj)
      as (_ & k & Hk & Hkb & _).
    destruct (BitVector_of_str_inv k b Hkb) as (_ & Hstr & Hlen).
    pose proof (proj1 (Forall_forall _ _) Hkeys k
                  (list_elem_of_lookup_2 _ _ _ Hk)) as [_ Hkn].
    split; [congruence|]. exists k. split; assumption. }
  assert (Hbits : n_bit r n).
  { split; [apply (Hentry _ _ _ _ Hbest)|].
    apply Forall_forall. intros [[b v] c] He.
    apply list_elem_of_lookup_1 in He as [j Hj]. apply (Hentry _ _ _ _ Hj). }
  destruct (plot_shots_histogram_Ok r n Hbits (or_introl Hn))
    as (hs & Hplot & Hlen & _ & Hl).
  eexists _, hs. split; [exact Hplot|]. fold es in Hl. split.
  - intros j k c Hj.
    destruct (built_entry_at _ _ _ _ _ _ _ _ Hf Hwf Hj) as (b & Hkb & Hbj).
    fold es in Hbj.
    destruct (Hentry _ _ _ _ Hbj) as (Hb & k' & Hk' & Hstr).
    assert (k' = k) as ->.
    { destruct (BitVector_of_str_inv k b Hkb) as (_ & Hs & _). congruence. }
    pose proof (decode_bound b) as Hd.
    assert (Hi : (Z.to_nat (decode b) < 2 ^ n)%nat).
    { rewrite <- Hb. apply Nat2Z.inj_lt.
      rewrite Nat2Z.inj_pow, Z2Nat.id by lia. simpl. lia. }
    exists (Z.to_nat (decode b)). split.
    + rewrite (labels_lookup n _ Hi), <- Hb, bits_of_decode, Hstr. reflexivity.
    + rewrite (Hl _ Hi). f_equal.
      apply (bucket_unique es j (b, energy qubo b, c)); [exact Hbj| |].
      * change (candidate (b, energy qubo b, c)) with b. lia.
      * intros j' [[b' v'] c'] Hj' Hd'.
        change (candidate (b', v', c')) with b' in Hd'.
        destruct (Hentry _ _ _ _ Hj') as (Hb' & k'' & Hk'' & Hstr').
        assert (b' = b) as -> by (apply decode_inj; [congruence|lia]).
        rewrite Hstr in Hstr'. subst k''.
        eapply NoDup_lookup; [exact Hwf|exact Hk''|exact Hk'].
  - intros i k Hi Hnot.
    pose proof (lookup_lt_Some _ _ _ Hi) as Li.
    rewrite length_map, product01_length in Li.
    rewrite (labels_lookup n i Li) in Hi. injection Hi as Hk.
    rewrite (Hl i Li). f_equal. apply bucket_none.
    intros [[b' v'] c'] He' Hd'.
    change (candidate (b', v', c')) with b' in Hd'.
    apply list_elem_of_lookup_1 in He' as [j' Hj'].
    destruct (Hentry _ _ _ _ Hj') as (Hb' & k' & Hk' & Hstr').
    apply Hnot. rewrite <- Hk.
    assert (bits_of n i = b') as ->.
    { rewrite <- (bits_of_decode b'), Hb', Hd', Nat2Z.id. reflexivity. }
    rewrite Hstr'. eapply list_elem_of_lookup_2, Hk'.
Qed.

Lemma built_histogram_shows_counts_witness :
  exists xs hs,
    QAOAResult.plot_shots_histogram result_sparse = Ok (xs, hs) /\
    (exists i, xs !! i = Some "11"%string /\ hs !! i = Some 2) /\
    hs !! 2%nat = Some 0.
Proof.
  destruct (built_histogram_shows_counts qubo_tie raw_sparse properties_example
              world_example result_sparse
              (World (heap world_example
                      ++ allocated
                           [AScalar 0.1%Q; AScalar 0.2%Q; AScalar 0.3%Q]
                           [AScalar 0.1%Q; AScalar 0.2%Q; AScalar 0.3%Q]
                           [AScalar 0.1%Q; AScalar 0.2%Q; AScalar 0.3%Q]
                           [AScalar 0.4%Q; AScalar 0.5%Q; AScalar 0.6%Q;
                            AScalar 0.7%Q]
                           [AScalar 3%Q; AScalar 2%Q])
                     [[false; true]; [true; true]]) 2)
    as (xs & hs & Hplot & Hkey & Hzero).
  - unfold dict_wf. apply (bool_decide_unpack _). vm_compute. exact I.
  - repeat constructor.
  - lia.
  - vm_compute. reflexivity.
  - exists xs, hs. split; [exact Hplot|]. split.
    + apply (Hkey 1%nat "11"%string 2). reflexivity.
    + apply (Hzero 2%nat "10"%string).
      * vm_compute in Hplot. injection Hplot as <- _. reflexivity.
      * intros Hin. apply list_elem_of_In in Hin. simpl in Hin.
        destruct Hin as [Hin|[Hin|[]]]; discriminate Hin.
Defined.

(** ** How the histogram view fails *)




